(** * Qdrant vector-database adapter: a shallow embedding of
      [packages/core/src/vectordb/qdrant-vectordb.ts] and its properties.

    The adapter is a thin layer between the indexing application and the
    Qdrant REST client.  JavaScript values are modelled as they exist at run
    time: strings are sequences of UTF-16 code units, numbers are IEEE-754
    doubles, payloads are dictionaries of arbitrary JSON values.  A promise
    is modelled by its settlement; an [async] method is a function from the
    world (backend state and the trace of backend calls issued so far) to
    the new world and either the thrown error or the returned value.
    Console output is left out. *)

From Stdlib Require Import NArith Ascii String PrimFloat.
From stdpp Require Import base option list strings gmap.

Set Default Proof Using "Type".
#[local] Set Warnings "-register-all".

(** ** JavaScript strings, numbers and values *)

Module Js.

(** A string is its sequence of UTF-16 code units. *)
Abbreviation jsstring := (list N).

(** The code units of an ASCII literal of the source. *)
Definition str (s : string) : jsstring :=
  (λ a, N_of_ascii a) <$> list_ascii_of_string s.

(** The double quote, U+0022. *)
Definition dquote : N := 34%N.

(** [number]: an IEEE-754 double. *)
Abbreviation number := float.

(** ToBoolean on a number: [+0], [-0] and [NaN] are falsy. *)
Definition truthy_num (x : number) : bool :=
  negb (PrimFloat.eqb x 0%float || PrimFloat.is_nan x).

(** ToBoolean on a string: only the empty string is falsy. *)
Definition truthy_str (s : jsstring) : bool :=
  match s with [] => false | _ :: _ => true end.

(** Values as they come back from the backend (decoded JSON), plus
    [undefined] for an absent property.  Objects keep their properties in
    insertion order. *)
Inductive value : Type :=
| Undefined
| Null
| Bool (b : bool)
| Num (x : number)
| Str (s : jsstring)
| Arr (l : list value)
| Obj (l : list (jsstring * value)).

(** ToBoolean. *)
Definition truthy (v : value) : bool :=
  match v with
  | Undefined | Null => false
  | Bool b => b
  | Num x => truthy_num x
  | Str s => truthy_str s
  | Arr _ | Obj _ => true
  end.

(** [a || b] *)
Definition or_else (a b : value) : value := if truthy a then a else b.

(** [x || d] when [x] is an optional number ([undefined] when absent). *)
Definition num_or (x : option number) (d : number) : number :=
  match x with
  | Some n => if truthy_num n then n else d
  | None => d
  end.

(** The length of an array as a number. *)
Fixpoint num_of_nat (n : nat) : number :=
  match n with
  | O => 0%float
  | S n' => (num_of_nat n' + 1)%float
  end.

(** [l.length <= limit] *)
Definition within {A} (limit : number) (l : list A) : bool :=
  PrimFloat.leb (num_of_nat (length l)) limit.

(** [v === n] for a number literal [n]. *)
Definition strict_eq_num (v : value) (n : number) : bool :=
  match v with
  | Num x => PrimFloat.eqb x n
  | _ => false
  end.

(** A plain object used as a dictionary: its own properties.  [o[k]], for
    a key that the prototype does not define, is [undefined] when [k] is
    absent. *)
Abbreviation dict := (gmap jsstring value).

Definition get (o : dict) (k : jsstring) : value := default Undefined (o !! k).

(** The properties that every plain object (an object literal, a parsed
    JSON object) inherits from [Object.prototype], nothing having been
    added to that prototype. *)
Definition object_prototype : list jsstring :=
  [ str "constructor"; str "__defineGetter__"; str "__defineSetter__";
    str "hasOwnProperty"; str "__lookupGetter__"; str "__lookupSetter__";
    str "isPrototypeOf"; str "propertyIsEnumerable"; str "toString";
    str "valueOf"; str "__proto__"; str "toLocaleString" ].

Definition inherited (k : jsstring) : bool :=
  existsb (λ n, bool_decide (n = k)) object_prototype.

(** [k in o] for a plain object: an own property or an inherited one. *)
Definition has (o : dict) (k : jsstring) : bool :=
  bool_decide (is_Some (o !! k)) || inherited k.

(** What [o[k]] evaluates to for a plain object: the own value; else the
    built-in that [Object.prototype] holds under [k] (a function, and for
    [__proto__] the prototype itself, which is an object); else
    [undefined]. *)
Inductive property : Type :=
| Data (v : value)
| Builtin (name : jsstring).

Definition read (o : dict) (k : jsstring) : property :=
  match o !! k with
  | Some v => Data v
  | None => if inherited k then Builtin k else Data Undefined
  end.

(** The own properties of an object that may hold built-ins. *)
Abbreviation record := (gmap jsstring property).

(** *** White space: the class [\s] of regular expressions, which is also
    what [String.prototype.trim] strips (WhiteSpace and LineTerminator). *)
Definition is_space (c : N) : bool :=
  ((9 <=? c) && (c <=? 13) || (c =? 32) || (c =? 160) || (c =? 5760)
   || (8192 <=? c) && (c <=? 8202) || (c =? 8232) || (c =? 8233)
   || (c =? 8239) || (c =? 8287) || (c =? 12288) || (c =? 65279))%N.

Fixpoint trimStart (s : jsstring) : jsstring :=
  match s with
  | c :: s' => if is_space c then trimStart s' else s
  | [] => []
  end.

Definition trim (s : jsstring) : jsstring :=
  reverse (trimStart (reverse (trimStart s))).

(** [s.startsWith(p)], returning what follows the prefix. *)
Fixpoint strip_prefix (p s : jsstring) : option jsstring :=
  match p, s with
  | [], _ => Some s
  | a :: p', b :: s' => if (a =? b)%N then strip_prefix p' s' else None
  | _ :: _, [] => None
  end.

(** [s.includes(p)] *)
Fixpoint includes (s p : jsstring) : bool :=
  match strip_prefix p s with
  | Some _ => true
  | None => match s with
            | [] => false
            | _ :: s' => includes s' p
            end
  end.

(** A thrown value: an [Error] with its message, and the [status] that
    the REST client attaches to a failed response ([undefined] on a
    plain [Error]). *)
Record error : Type := Error_ { status : value; message : option jsstring }.

(** [new Error(msg)] *)
Definition new_Error (msg : string) : error :=
  {| status := Undefined; message := Some (str msg) |}.

End Js.

(** ** The filter expression of [query]

    [query] converts a Milvus-style filter with one regular expression,
    [/relativePath\s*==\s*Q([^Q]+)Q/] where Q stands for the double quote,
    used through [String.prototype.match] without the [g] flag: the leftmost
    match wins and group 1 is read. *)

Module Filter.
Import Js.

(** [\s*]: greedy, and never given back, since what follows in the
    pattern ([=] or the quote) is not white space. *)
Definition skip_spaces : jsstring → jsstring := trimStart.

(** The group [([^Q]+)] up to the closing quote: the longest run of units other than
    the quote, and what is left. *)
Fixpoint span_unquoted (s : jsstring) : jsstring * jsstring :=
  match s with
  | c :: s' =>
      if (c =? dquote)%N then ([], s)
      else let '(lit, rest) := span_unquoted s' in (c :: lit, rest)
  | [] => ([], [])
  end.

(** The pattern tried at the start of [s]; the result is group 1. *)
Definition match_here (s : jsstring) : option jsstring :=
  s1 ← strip_prefix (str "relativePath") s;
  s2 ← strip_prefix (str "==") (skip_spaces s1);
  s3 ← strip_prefix [dquote] (skip_spaces s2);
  match span_unquoted s3 with
  | ((_ :: _) as lit, _ :: _) => Some lit
  | _ => None
  end.

(** [filter.match(re)]: the pattern is tried at every index from the left;
    [None] is the [null] of no match. *)
Fixpoint regex_match (s : jsstring) : option jsstring :=
  match match_here s with
  | Some lit => Some lit
  | None => match s with
            | [] => None
            | _ :: s' => regex_match s'
            end
  end.

(** The Qdrant filter built by [query]: [{ must: [{ key, match: { value } }] }]. *)
Record FieldCondition : Type := { key : jsstring; match_value : jsstring }.
Record QdrantFilter : Type := { must : list FieldCondition }.

(** [qdrantFilter] as [query] computes it; [None] is [null]. *)
Definition qdrantFilter (filter : jsstring) : option QdrantFilter :=
  if truthy_str filter && negb (bool_decide (trim filter = [])) then
    match regex_match filter with
    | Some pathMatch1 =>
        Some {| must := [ {| key := str "relativePath"; match_value := pathMatch1 |} ] |}
    | None => None
    end
  else None.

(** What the backend does with such a filter: every [must] condition
    requires the payload field [key] to be the string [value]. *)
Definition satisfies (payload : dict) (f : QdrantFilter) : Prop :=
  Forall (λ c, payload !! key c = Some (Str (match_value c))) (must f).

(** *** The language of the regular expression, declaratively. *)

(** [s] starts with a match of the pattern whose group 1 is [lit]. *)
Definition pattern_at (s lit : jsstring) : Prop :=
  ∃ ws1 ws2 rest,
    s = str "relativePath" ++ ws1 ++ str "==" ++ ws2
          ++ [dquote] ++ lit ++ [dquote] ++ rest
    ∧ Forall (λ c, is_space c = true) ws1
    ∧ Forall (λ c, is_space c = true) ws2
    ∧ lit ≠ [] ∧ dquote ∉ lit.

(** The leftmost match of the pattern in [s] has group 1 [lit]. *)
Definition leftmost_match (s lit : jsstring) : Prop :=
  ∃ pre suf,
    s = pre ++ suf ∧ pattern_at suf lit
    ∧ ∀ pre' suf' lit',
        s = pre' ++ suf' → length pre' < length pre → ¬ pattern_at suf' lit'.

(** The pattern matches nowhere in [s]. *)
Definition no_match (s : jsstring) : Prop :=
  ∀ pre suf lit, s = pre ++ suf → ¬ pattern_at suf lit.

(** The filter of the spec's grammar: a field, [==], and a literal between
    double quotes. *)
Definition equality_clause (field literal : jsstring) : jsstring :=
  field ++ str " == " ++ [dquote] ++ literal ++ [dquote].

(** The predicate [query] builds for a path: relativePath must be [lit]. *)
Definition path_is (lit : jsstring) : QdrantFilter :=
  {| must := [ {| key := str "relativePath"; match_value := lit |} ] |}.

(** Section 4.4: the predicate for a clause on [field] with [literal]. *)
Definition field_is (field literal : jsstring) : QdrantFilter :=
  {| must := [ {| key := field; match_value := literal |} ] |}.

End Filter.

(** ** The REST client, as far as the adapter uses it *)

Module Qdrant.
Import Js.

(** The object handed to [new QdrantClient(...)]; a field is [None] when
    the property was never set. *)
Record ClientParams : Type := {
  url : option jsstring;
  host : option jsstring;
  port : option number;
  apiKey : option jsstring;
  timeout : option number
}.

(** [{}] and the property assignments on it. *)
Definition no_params : ClientParams :=
  {| url := None; host := None; port := None; apiKey := None; timeout := None |}.

Definition set_url (v : option jsstring) (p : ClientParams) : ClientParams :=
  {| url := v; host := host p; port := port p; apiKey := apiKey p; timeout := timeout p |}.

Definition set_host (v : option jsstring) (p : ClientParams) : ClientParams :=
  {| url := url p; host := v; port := port p; apiKey := apiKey p; timeout := timeout p |}.

Definition set_port (v : option number) (p : ClientParams) : ClientParams :=
  {| url := url p; host := host p; port := v; apiKey := apiKey p; timeout := timeout p |}.

Definition set_apiKey (v : option jsstring) (p : ClientParams) : ClientParams :=
  {| url := url p; host := host p; port := port p; apiKey := v; timeout := timeout p |}.

Definition set_timeout (v : option number) (p : ClientParams) : ClientParams :=
  {| url := url p; host := host p; port := port p; apiKey := apiKey p; timeout := v |}.

Record VectorParams : Type := { size : number; distance : jsstring }.

(** [vectors]: one unnamed vector, or vectors by name. *)
Inductive VectorsConfig : Type :=
| SingleVector (p : VectorParams)
| NamedVectors (vs : list (jsstring * VectorParams)).

Inductive PointVector : Type :=
| Unnamed (v : list number)
| Named (vs : list (jsstring * list number)).

Record PointStruct : Type := {
  point_id : value;
  point_vector : PointVector;
  point_payload : dict
}.

Record UpsertArgs : Type := { upsert_wait : bool; upsert_points : list PointStruct }.

Record DeleteArgs : Type := { delete_wait : bool; delete_points : list jsstring }.

(** The query vector of a search: bare, or [{ name, vector }]. *)
Inductive QueryVector : Type :=
| Bare (v : list number)
| NamedQuery (name : jsstring) (v : list value).

Record SearchArgs : Type := {
  search_vector : QueryVector;
  search_limit : number;
  score_threshold : option number;
  search_with_payload : bool;
  search_with_vector : bool
}.

Record ScrollArgs : Type := {
  scroll_filter : option Filter.QdrantFilter;
  scroll_limit : number;
  scroll_with_payload : bool;
  scroll_with_vector : bool
}.

(** A search hit; [payload] is [None] when the backend sent [null] or
    nothing. *)
Record ScoredPoint : Type := {
  id : value;
  score : number;
  payload : option dict
}.

Record Record_ : Type := { record_id : value; record_payload : option dict }.

Record ScrollResponse : Type := { points : list Record_ }.

Record CollectionDescription : Type := { name : jsstring }.

Record CollectionsResponse : Type := { collections : list CollectionDescription }.

(** The client methods the adapter calls, indexed by what they resolve to
    (a result the adapter never reads is [unit]). *)
Inductive call : Type → Type :=
| createCollection (collection : jsstring) (vectors : VectorsConfig) : call unit
| deleteCollection (collection : jsstring) : call unit
| getCollection (collection : jsstring) : call unit
| getCollections : call CollectionsResponse
| upsert (collection : jsstring) (args : UpsertArgs) : call unit
| search (collection : jsstring) (args : SearchArgs) : call (list ScoredPoint)
| delete (collection : jsstring) (args : DeleteArgs) : call unit
| scroll (collection : jsstring) (args : ScrollArgs) : call ScrollResponse.

(** A call with its result type forgotten, for traces. *)
Inductive issued : Type :=
| Issued {R : Type} (k : call R).

(** A client handle over a backend with states [B]: every call moves the
    backend and either rejects with an error or resolves. *)
Record client (B : Type) : Type := Client {
  perform : ∀ R, call R → B → B * (error + R)
}.
Arguments perform {B} _ {R} _ _.
Arguments Client {B} _.

End Qdrant.

(** ** Asynchronous methods run to settlement *)

Module Async.
Import Js.

Section World.
Context {B : Type}.

(** The backend and the calls issued to it so far, oldest first. *)
Record world : Type := World { backend : B; trace : list Qdrant.issued }.

(** [Promise<A>] of an [async] method, settled: rejected with the thrown
    value or fulfilled. *)
Definition t (A : Type) : Type := world → world * (error + A).

Definition ret {A} (a : A) : t A := λ w, (w, inr a).

Definition throw {A} (e : error) : t A := λ w, (w, inl e).

Definition bind {A C} (m : t A) (f : A → t C) : t C :=
  λ w, match m w with
       | (w', inr a) => f a w'
       | (w', inl e) => (w', inl e)
       end.

(** [try { m } catch (error) { h error }] *)
Definition try_catch {A} (m : t A) (h : error → t A) : t A :=
  λ w, match m w with
       | (w', inr a) => (w', inr a)
       | (w', inl e) => h e w'
       end.

(** [await client.method(...)] on a handle that may be [null]: calling
    a method on [null] throws a [TypeError] and reaches no backend. *)
Definition invoke {R} (c : option (Qdrant.client B)) (k : Qdrant.call R) : t R :=
  match c with
  | Some cl =>
      λ w, let '(b', r) := Qdrant.perform cl k (backend w) in
           ({| backend := b'; trace := trace w ++ [Qdrant.Issued k] |}, r)
  | None => throw (new_Error "Cannot read properties of null")
  end.

End World.

Arguments world : clear implicits.
Arguments t : clear implicits.

(** [x ← m; k] awaits [m]; a rejection skips [k]. *)
#[global] Instance async_ret {B} : MRet (t B) := λ A, ret.
#[global] Instance async_bind {B} : MBind (t B) := λ A C f m, bind m f.

End Async.


(** ** The adapter *)

Module Adapter.
Import Js.
Export Async.

(** Modelled from the spec: the declarations of [./types] (the document,
    option, request and result interfaces) are not among the sources.
    Section 3 of the spec gives the document its fields; fields filled
    from a backend payload are unchecked casts in the source, hence
    arbitrary values here. *)
Record VectorDocument : Type := {
  id : value;
  vector : list number;
  content : value;
  relativePath : value;
  startLine : value;
  endLine : value;
  fileExtension : value;
  metadata : value
}.

Record SearchOptions : Type := { topK : option number; threshold : option number }.

Record VectorSearchResult : Type := { document : VectorDocument; score : number }.

(** One request of a hybrid search, with the properties [hybridSearch]
    reads: the field searched, the data and a limit. *)
Record HybridSearchRequest : Type := {
  anns_field : jsstring;
  data : value;
  req_limit : option number
}.

Record HybridSearchOptions : Type := { limit : option number }.

Record QdrantConfig : Type := {
  url : option jsstring;
  apiKey : option jsstring;
  port : option number;
  host : option jsstring;
  timeout : option number
}.

(** ToBoolean on an optional property: [undefined] is falsy. *)
Definition truthy_opt (s : option jsstring) : bool :=
  match s with Some v => truthy_str v | None => false end.

Definition truthy_opt_num (x : option number) : bool :=
  match x with Some v => truthy_num v | None => false end.

(** The [clientConfig] that [initializeClient] assembles, starting from
    the empty object. *)
Definition clientConfig (config : QdrantConfig) : Qdrant.ClientParams :=
  let clientConfig := Qdrant.no_params in
  let clientConfig :=
    if truthy_opt (url config) then
      Qdrant.set_url (url config) clientConfig
    else if truthy_opt (host config) then
      let host := host config in
      let port := num_or (port config) 6333 in
      Qdrant.set_port (Some port) (Qdrant.set_host host clientConfig)
    else
      Qdrant.set_port (Some 6333%float)
        (Qdrant.set_host (Some (str "localhost")) clientConfig) in
  let clientConfig :=
    if truthy_opt (apiKey config) then
      Qdrant.set_apiKey (apiKey config) clientConfig
    else clientConfig in
  let clientConfig :=
    if truthy_opt_num (timeout config) then
      Qdrant.set_timeout (timeout config) clientConfig
    else clientConfig in
  clientConfig.

(** How a promise settled. *)
Inductive settlement : Type := Fulfilled | Rejected (reason : error).

Section WithBackend.
Context {B : Type}.

(** An instance: its configuration, the client handle ([None] is
    [null]) and the settled initialization promise. *)
Record QdrantVectorDatabase : Type := {
  config : QdrantConfig;
  client : option (Qdrant.client B);
  initializationPromise : settlement
}.

(** [new QdrantVectorDatabase(config)], the initialization having run;
    [QdrantClient] is the constructor of the REST client, which may
    throw on a configuration it refuses. *)
Definition new (QdrantClient : Qdrant.ClientParams → error + Qdrant.client B)
    (config : QdrantConfig) : QdrantVectorDatabase :=
  match QdrantClient (clientConfig config) with
  | inr c => {| config := config; client := Some c; initializationPromise := Fulfilled |}
  | inl e => {| config := config; client := None; initializationPromise := Rejected e |}
  end.

Definition NotInitialized : error := new_Error "Qdrant client not initialized".

Definition InvalidRequest : error :=
  new_Error "Dense vector search request required for hybrid search".

Definition ensureInitialized (this : QdrantVectorDatabase) : Async.t B unit :=
  match initializationPromise this with
  | Rejected reason => throw reason
  | Fulfilled =>
      match client this with
      | None => throw NotInitialized
      | Some _ => mret ()
      end
  end.


Definition createCollection (this : QdrantVectorDatabase)
    (collectionName : jsstring) (dimension : number)
    (description : option jsstring) : Async.t B unit :=
  ensureInitialized this;;
  invoke (client this)
    (Qdrant.createCollection collectionName
       (Qdrant.SingleVector
          {| Qdrant.size := dimension; Qdrant.distance := str "Cosine" |})).

Definition createHybridCollection (this : QdrantVectorDatabase)
    (collectionName : jsstring) (dimension : number)
    (description : option jsstring) : Async.t B unit :=
  ensureInitialized this;;
  invoke (client this)
    (Qdrant.createCollection collectionName
       (Qdrant.NamedVectors
          [ (str "dense",
             {| Qdrant.size := dimension; Qdrant.distance := str "Cosine" |}) ])).

Definition dropCollection (this : QdrantVectorDatabase)
    (collectionName : jsstring) : Async.t B unit :=
  ensureInitialized this;;
  invoke (client this) (Qdrant.deleteCollection collectionName).

(** [error.status === 404 || error.message?.includes('not found')] *)
Definition is_not_found (e : error) : bool :=
  strict_eq_num (status e) 404
  || match message e with
     | Some m => includes m (str "not found")
     | None => false
     end.

Definition hasCollection (this : QdrantVectorDatabase)
    (collectionName : jsstring) : Async.t B bool :=
  ensureInitialized this;;
  try_catch
    (invoke (client this) (Qdrant.getCollection collectionName);;
     mret true)
    (λ error, if is_not_found error then mret false else throw error).

Definition listCollections (this : QdrantVectorDatabase) : Async.t B (list jsstring) :=
  ensureInitialized this;;
  response ← invoke (client this) Qdrant.getCollections;
  mret (Qdrant.name <$> Qdrant.collections response).

(** The payload written for a document: the five content and
    provenance fields and the metadata. *)
Definition payload_of (doc : VectorDocument) : dict :=
  {[ str "content" := content doc;
     str "relativePath" := relativePath doc;
     str "startLine" := startLine doc;
     str "endLine" := endLine doc;
     str "fileExtension" := fileExtension doc;
     str "metadata" := metadata doc ]}.

Definition insert (this : QdrantVectorDatabase)
    (collectionName : jsstring) (documents : list VectorDocument) : Async.t B unit :=
  ensureInitialized this;;
  let points :=
    (λ doc, {| Qdrant.point_id := id doc;
               Qdrant.point_vector := Qdrant.Unnamed (vector doc);
               Qdrant.point_payload := payload_of doc |}) <$> documents in
  invoke (client this)
    (Qdrant.upsert collectionName
       {| Qdrant.upsert_wait := true; Qdrant.upsert_points := points |}).

Definition insertHybrid (this : QdrantVectorDatabase)
    (collectionName : jsstring) (documents : list VectorDocument) : Async.t B unit :=
  ensureInitialized this;;
  let points :=
    (λ doc, {| Qdrant.point_id := id doc;
               Qdrant.point_vector := Qdrant.Named [ (str "dense", vector doc) ];
               Qdrant.point_payload := payload_of doc |}) <$> documents in
  invoke (client this)
    (Qdrant.upsert collectionName
       {| Qdrant.upsert_wait := true; Qdrant.upsert_points := points |}).

(** The mapping of a hit to a result, which [search] and [hybridSearch]
    both spell out; they differ in the [vector] they put in. *)
Definition to_result (vector : list number) (result : Qdrant.ScoredPoint)
    : VectorSearchResult :=
  let payload := default ∅ (Qdrant.payload result) in
  {| document :=
       {| id := Qdrant.id result;
          vector := vector;
          content := or_else (get payload (str "content")) (Str []);
          relativePath := or_else (get payload (str "relativePath")) (Str []);
          startLine := or_else (get payload (str "startLine")) (Num 0);
          endLine := or_else (get payload (str "endLine")) (Num 0);
          fileExtension := or_else (get payload (str "fileExtension")) (Str []);
          metadata := or_else (get payload (str "metadata")) (Obj []) |};
     score := Qdrant.score result |}.

(** The issued call asks the backend to send stored vectors back. *)
Definition requests_vector (i : Qdrant.issued) : bool :=
  match i with
  | Qdrant.Issued k =>
      match k with
      | Qdrant.search _ args => Qdrant.search_with_vector args
      | Qdrant.scroll _ args => Qdrant.scroll_with_vector args
      | _ => false
      end
  end.

(** The payload of the hit has no property [field] (or there is no payload
    at all). *)
Definition lacks (hit : Qdrant.ScoredPoint) (field : string) : Prop :=
  match Qdrant.payload hit with
  | Some payload => payload !! str field = None
  | None => True
  end.

Definition search (this : QdrantVectorDatabase)
    (collectionName : jsstring) (queryVector : list number)
    (options : option SearchOptions) : Async.t B (list VectorSearchResult) :=
  ensureInitialized this;;
  let limit := num_or (options ≫= topK) 10 in
  let scoreThreshold := num_or (options ≫= threshold) 0 in
  searchResult ←
    invoke (client this)
      (Qdrant.search collectionName
         {| Qdrant.search_vector := Qdrant.Bare queryVector;
            Qdrant.search_limit := limit;
            Qdrant.score_threshold := Some scoreThreshold;
            Qdrant.search_with_payload := true;
            Qdrant.search_with_vector := false |});
  mret (to_result queryVector <$> searchResult).

(** [req => req.anns_field === 'vector'] *)
Definition is_dense (req : HybridSearchRequest) : bool :=
  bool_decide (anns_field req = str "vector").

Definition hybridSearch (this : QdrantVectorDatabase)
    (collectionName : jsstring) (searchRequests : list HybridSearchRequest)
    (options : option HybridSearchOptions) : Async.t B (list VectorSearchResult) :=
  ensureInitialized this;;
  let limit :=
    num_or (options ≫= limit) (num_or (head searchRequests ≫= req_limit) 10) in
  match find is_dense searchRequests with
  | Some denseSearchRequest =>
      match data denseSearchRequest with
      | Arr vector =>
          searchResult ←
            invoke (client this)
              (Qdrant.search collectionName
                 {| Qdrant.search_vector := Qdrant.NamedQuery (str "dense") vector;
                    Qdrant.search_limit := limit;
                    Qdrant.score_threshold := None;
                    Qdrant.search_with_payload := true;
                    Qdrant.search_with_vector := false |});
          mret (to_result [] <$> searchResult)
      | _ => throw InvalidRequest
      end
  | None => throw InvalidRequest
  end.

Definition delete (this : QdrantVectorDatabase)
    (collectionName : jsstring) (ids : list jsstring) : Async.t B unit :=
  ensureInitialized this;;
  invoke (client this)
    (Qdrant.delete collectionName
       {| Qdrant.delete_wait := true; Qdrant.delete_points := ids |}).

(** [result[field] = v] on the row under construction.  The row is its own
    properties together with a flag: whether the setter that
    [Object.prototype] holds under [__proto__] is out of reach, the
    prototype of the row having become [null] or an object with an own
    property of that name.  An assignment creates or updates an own
    property, except the assignment to [__proto__] that reaches the
    setter: that one creates nothing and makes its value, when it is an
    object or [null], the prototype of the row. *)
Definition assign (field : jsstring) (v : property) (row : record * bool)
    : record * bool :=
  let '(result, shadowed) := row in
  if bool_decide (field = str "__proto__")
     && negb (bool_decide (is_Some (result !! field))) && negb shadowed
  then
    match v with
    | Data Null => (result, true)
    | Data (Obj l) =>
        (result, existsb (λ kv, bool_decide (kv.1 = str "__proto__")) l)
    | _ => (result, false)
    end
  else (<[ field := v ]> result, shadowed).

(** The body of the [forEach] of [query]. *)
Definition add_field (payload : dict) (row : record * bool) (field : jsstring)
    : record * bool :=
  if has payload field then assign field (read payload field) row else row.

(** One row of [query], given by its own properties: the id, then every
    requested field that is in the payload. *)
Definition to_row (outputFields : list jsstring) (point : Qdrant.Record_) : record :=
  let result : record * bool := ({[ str "id" := Data (Qdrant.record_id point) ]}, false) in
  match Qdrant.record_payload point with
  | Some payload => (foldl (add_field payload) result outputFields).1
  | None => result.1
  end.

Definition query (this : QdrantVectorDatabase)
    (collectionName : jsstring) (filter : jsstring)
    (outputFields : list jsstring) (limit : option number)
    : Async.t B (list record) :=
  ensureInitialized this;;
  let qdrantFilter := Filter.qdrantFilter filter in
  try_catch
    (scrollResult ←
       invoke (client this)
         (Qdrant.scroll collectionName
            {| Qdrant.scroll_filter := qdrantFilter;
               Qdrant.scroll_limit := num_or limit 100;
               Qdrant.scroll_with_payload := true;
               Qdrant.scroll_with_vector := false |});
     mret (to_row outputFields <$> Qdrant.points scrollResult))
    (λ error, throw error).

(** The public surface of the class: one constructor per method, with
    its arguments, indexed by what the method resolves to. *)
Inductive operation : Type → Type :=
| CreateCollection (collectionName : jsstring) (dimension : number)
    (description : option jsstring) : operation unit
| CreateHybridCollection (collectionName : jsstring) (dimension : number)
    (description : option jsstring) : operation unit
| DropCollection (collectionName : jsstring) : operation unit
| HasCollection (collectionName : jsstring) : operation bool
| ListCollections : operation (list jsstring)
| Insert (collectionName : jsstring) (documents : list VectorDocument) : operation unit
| InsertHybrid (collectionName : jsstring) (documents : list VectorDocument)
    : operation unit
| Search (collectionName : jsstring) (queryVector : list number)
    (options : option SearchOptions) : operation (list VectorSearchResult)
| HybridSearch (collectionName : jsstring)
    (searchRequests : list HybridSearchRequest)
    (options : option HybridSearchOptions) : operation (list VectorSearchResult)
| Delete (collectionName : jsstring) (ids : list jsstring) : operation unit
| Query (collectionName : jsstring) (filter : jsstring)
    (outputFields : list jsstring) (limit : option number) : operation (list record).

Definition call_method {R} (this : QdrantVectorDatabase) (op : operation R)
    : Async.t B R :=
  match op with
  | CreateCollection n d descr => createCollection this n d descr
  | CreateHybridCollection n d descr => createHybridCollection this n d descr
  | DropCollection n => dropCollection this n
  | HasCollection n => hasCollection this n
  | ListCollections => listCollections this
  | Insert n docs => insert this n docs
  | InsertHybrid n docs => insertHybrid this n docs
  | Search n v o => search this n v o
  | HybridSearch n rs o => hybridSearch this n rs o
  | Delete n ids => delete this n ids
  | Query n f out l => query this n f out l
  end.

(** Between [w] and [w'] nothing was sent, or one call that does not ask
    for stored vectors. *)
Definition sent_without_vector (w w' : world B) : Prop :=
  trace w' = trace w
  ∨ ∃ i, trace w' = trace w ++ [i] ∧ requests_vector i = false.

(** The setup has completed and left the handle [c]. *)
Definition ready (this : QdrantVectorDatabase) (c : Qdrant.client B) : Prop :=
  initializationPromise this = Fulfilled ∧ client this = Some c.

(** One backend call was performed between [w] and [w']. *)
Definition one_call (c : Qdrant.client B) (w w' : world B) : Prop :=
  ∃ R (k : Qdrant.call R),
    w' = {| backend := (Qdrant.perform c k (backend w)).1;
            trace := trace w ++ [Qdrant.Issued k] |}.

(** The vector [hybridSearch] searches with: the data of the first
    request on the field [vector], when that is an array. *)
Definition dense_vector (searchRequests : list HybridSearchRequest)
    : option (list value) :=
  match find is_dense searchRequests with
  | Some req => match data req with Arr v => Some v | _ => None end
  | None => None
  end.

(** The arguments pass the method's own checks. *)
Definition accepted {R} (op : operation R) : Prop :=
  match op with
  | HybridSearch _ searchRequests _ => is_Some (dense_vector searchRequests)
  | _ => True
  end.

End WithBackend.
Arguments QdrantVectorDatabase : clear implicits.
Arguments operation : clear implicits.
End Adapter.

(** ** A backend in memory

    One collection, [code], whose points are kept in insertion order.  It
    answers as the REST service does as far as the adapter can tell: an
    unknown collection is a 404, a search honours [limit] and
    [score_threshold], a scroll honours [filter] and [limit]. *)

Module Memory.
Import Js.

(** The longest prefix of [l] that, put after [n] elements, stays within
    [limit]. *)
Fixpoint up_to {A} (limit : number) (n : nat) (l : list A) : list A :=
  match l with
  | x :: l' =>
      if PrimFloat.leb (num_of_nat (S n)) limit then x :: up_to limit (S n) l' else []
  | [] => []
  end.

Definition store : Type := list Qdrant.PointStruct.

Definition code : jsstring := str "code".

Definition not_found : error :=
  {| status := Num 404; message := Some (str "Not Found") |}.

(** Every stored point scores 1 against every query. *)
Definition hit (p : Qdrant.PointStruct) : Qdrant.ScoredPoint :=
  {| Qdrant.id := Qdrant.point_id p;
     Qdrant.score := 1%float;
     Qdrant.payload := Some (Qdrant.point_payload p) |}.

Definition above (threshold : option number) (h : Qdrant.ScoredPoint) : bool :=
  match threshold with
  | Some t => PrimFloat.leb t (Qdrant.score h)
  | None => true
  end.

Definition condition_holds (payload : dict) (c : Filter.FieldCondition) : bool :=
  match payload !! Filter.key c with
  | Some (Str s) => bool_decide (s = Filter.match_value c)
  | _ => false
  end.

Definition passes (f : option Filter.QdrantFilter) (p : Qdrant.PointStruct) : bool :=
  match f with
  | Some f => forallb (condition_holds (Qdrant.point_payload p)) (Filter.must f)
  | None => true
  end.

Definition row (p : Qdrant.PointStruct) : Qdrant.Record_ :=
  {| Qdrant.record_id := Qdrant.point_id p;
     Qdrant.record_payload := Some (Qdrant.point_payload p) |}.

Definition is_listed (ids : list jsstring) (p : Qdrant.PointStruct) : bool :=
  match Qdrant.point_id p with
  | Str s => bool_decide (s ∈ ids)
  | _ => false
  end.

(** A call on a collection other than [code] is rejected with a 404. *)
Definition on_code {R} (collection : jsstring) (s : store)
    (k : store * (error + R)) : store * (error + R) :=
  if bool_decide (collection = code) then k else (s, inl not_found).

Definition serve {R} (k : Qdrant.call R) (s : store) : store * (error + R) :=
  match k in Qdrant.call R return store * (error + R) with
  | Qdrant.createCollection _ _ => (s, inr ())
  | Qdrant.deleteCollection c => on_code c s ([], inr ())
  | Qdrant.getCollection c => on_code c s (s, inr ())
  | Qdrant.getCollections =>
      (s, inr {| Qdrant.collections := [ {| Qdrant.name := code |} ] |})
  | Qdrant.upsert c args => on_code c s (s ++ Qdrant.upsert_points args, inr ())
  | Qdrant.search c args =>
      on_code c s
        (s, inr (up_to (Qdrant.search_limit args) 0
                   (filter (λ h, above (Qdrant.score_threshold args) h = true)
                      (hit <$> s))))
  | Qdrant.delete c args =>
      on_code c s
        (filter (λ p, is_listed (Qdrant.delete_points args) p = false) s, inr ())
  | Qdrant.scroll c args =>
      on_code c s
        (s, inr {| Qdrant.points :=
                     up_to (Qdrant.scroll_limit args) 0
                       (row <$> filter (λ p, passes (Qdrant.scroll_filter args) p = true) s) |})
  end.

Definition client : Qdrant.client store := Qdrant.Client (@serve).

(** The constructor of the REST client: it refuses a [url] without a
    protocol. *)
Definition QdrantClient (params : Qdrant.ClientParams) : error + Qdrant.client store :=
  match Qdrant.url params with
  | Some u =>
      if is_Some_dec (strip_prefix (str "http://") u) then inr client
      else if is_Some_dec (strip_prefix (str "https://") u) then inr client
      else inl (new_Error "The url param expected to contain a valid URL starting with a protocol")
  | None => inr client
  end.

End Memory.

(** ** The wording of the specification

    What sections 4.1 and 4.3 promise, word for word, to be compared with
    what the source computes, and the vocabulary for the falsy values on
    which the two part. *)

Module Stated.
Import Js.

(** An optional string that is absent or empty. *)
Definition blank (s : option jsstring) : Prop := s = None ∨ s = Some [].

(** An optional number that is absent, a zero or NaN. *)
Definition null_num (x : option number) : Prop :=
  x = None
  ∨ ∃ n, x = Some n ∧ (PrimFloat.eqb n 0 = true ∨ PrimFloat.is_nan n = true).

(** Section 4.1: a url, if supplied, is used; otherwise the host, with the
    port or 6333; otherwise localhost:6333.  An apiKey and a timeout, if
    supplied, are passed through unconditionally. *)
Definition connection (config : Adapter.QdrantConfig) (p : Qdrant.ClientParams) : Prop :=
  (∀ u, Adapter.url config = Some u → Qdrant.url p = Some u)
  ∧ (Adapter.url config = None → ∀ h, Adapter.host config = Some h →
       Qdrant.host p = Some h
       ∧ Qdrant.port p = Some (default 6333%float (Adapter.port config)))
  ∧ (Adapter.url config = None → Adapter.host config = None →
       Qdrant.host p = Some (str "localhost") ∧ Qdrant.port p = Some 6333%float)
  ∧ (∀ k, Adapter.apiKey config = Some k → Qdrant.apiKey p = Some k)
  ∧ (∀ t, Adapter.timeout config = Some t → Qdrant.timeout p = Some t).

(** Section 4.3, [search]: topK is 10 and threshold is 0 when the caller
    omits them, and is the caller's value otherwise; at most topK results
    come back, none scoring below threshold. *)
Definition search_bounds (options : option Adapter.SearchOptions)
    (results : list Adapter.VectorSearchResult) : Prop :=
  let topK := default 10%float (options ≫= Adapter.topK) in
  let threshold := default 0%float (options ≫= Adapter.threshold) in
  within topK results = true
  ∧ Forall (λ r, PrimFloat.leb threshold (Adapter.score r) = true) results.

(** Sections 4.3 and 8, [hybridSearch]: a dense request is present, that
    is, some request of the list targets the dense field. *)
Definition dense_present (searchRequests : list Adapter.HybridSearchRequest) : Prop :=
  Exists (λ req, Adapter.anns_field req = str "vector") searchRequests.

End Stated.

(** ** Sample data *)

Module Sample.
Import Js Adapter.

Definition no_config : QdrantConfig :=
  {| url := None; apiKey := None; port := None; host := None; timeout := None |}.

(** [{ url: 'qdrant:6333' }]: a url without its protocol. *)
Definition bad_url : QdrantConfig :=
  {| url := Some (str "qdrant:6333"); apiKey := None; port := None;
     host := None; timeout := None |}.

(** [{ host: 'qdrant', port: 0, timeout: 0 }] *)
Definition zeros : QdrantConfig :=
  {| url := None; apiKey := None; port := Some 0%float;
     host := Some (str "qdrant"); timeout := Some 0%float |}.

Definition db : QdrantVectorDatabase Memory.store := new Memory.QdrantClient no_config.

(** An instance whose setup settled without a handle. *)
Definition no_handle : QdrantVectorDatabase Memory.store :=
  {| config := no_config; client := None; initializationPromise := Fulfilled |}.

Definition doc (id path ext : string) : VectorDocument :=
  {| id := Str (str id);
     vector := [1%float; 0%float];
     content := Str (str "export {}");
     relativePath := Str (str path);
     startLine := Num 1;
     endLine := Num 2;
     fileExtension := Str (str ext);
     metadata := Obj [] |}.

Definition docs : list VectorDocument :=
  [ doc "a" "src/a.ts" ".ts"; doc "b" "src/b.py" ".py"; doc "c" "src/c.ts" ".ts" ].

Definition empty : world Memory.store := {| backend := []; trace := [] |}.

(** The collection [code] holding [docs], nothing issued yet. *)
Definition seeded : world Memory.store :=
  {| backend := backend (insert db Memory.code docs empty).1; trace := [] |}.

(** A hit from a backend filled by an older payload shape: no line
    numbers. *)
Definition old_hit : Qdrant.ScoredPoint :=
  {| Qdrant.id := Str (str "old");
     Qdrant.score := 1%float;
     Qdrant.payload := Some {[ str "content" := Str (str "x") ]} |}.

Definition dense_request : HybridSearchRequest :=
  {| anns_field := str "vector"; data := Arr [Num 1; Num 0]; req_limit := Some 5%float |}.

(** A request on the field [dense], which is the name of the vector in
    the backend. *)
Definition named_dense_request : HybridSearchRequest :=
  {| anns_field := str "dense"; data := Arr [Num 1; Num 0]; req_limit := Some 5%float |}.

Definition sparse_request : HybridSearchRequest :=
  {| anns_field := str "sparse_vector"; data := Str (str "parse config");
     req_limit := Some 5%float |}.

(** A request on the field [vector] that carries text. *)
Definition text_request : HybridSearchRequest :=
  {| anns_field := str "vector"; data := Str (str "parse config");
     req_limit := Some 5%float |}.

End Sample.

(** ** The document codec and the shape of a method, for the properties
    beyond the numbered claims *)

Module Codec.
Import Js Adapter.

(** The point [insert] builds for a document. *)
Definition encode (doc : VectorDocument) : Qdrant.PointStruct :=
  {| Qdrant.point_id := id doc;
     Qdrant.point_vector := Qdrant.Unnamed (vector doc);
     Qdrant.point_payload := payload_of doc |}.

(** The point [insertHybrid] builds for a document. *)
Definition encode_hybrid (doc : VectorDocument) : Qdrant.PointStruct :=
  {| Qdrant.point_id := id doc;
     Qdrant.point_vector := Qdrant.Named [ (str "dense", vector doc) ];
     Qdrant.point_payload := payload_of doc |}.

(** A stored point as a search returns it with [with_payload] set and
    [with_vector] unset: its id and payload, and a score. *)
Definition stored_hit (score : number) (p : Qdrant.PointStruct) : Qdrant.ScoredPoint :=
  {| Qdrant.id := Qdrant.point_id p;
     Qdrant.score := score;
     Qdrant.payload := Some (Qdrant.point_payload p) |}.

(** The six keys of a written payload. *)
Definition payload_keys : list jsstring :=
  [ str "content"; str "relativePath"; str "startLine"; str "endLine";
    str "fileExtension"; str "metadata" ].

(** A number that [x || 0] gives back: anything but NaN and the negative
    zero. *)
Definition kept_num (v : value) : Prop :=
  ∃ x, v = Num x ∧ (truthy_num x = true ∨ x = 0%float).

(** A document whose fields have the types of its interface. *)
Definition well_typed (doc : VectorDocument) : Prop :=
  (∃ s, content doc = Str s)
  ∧ (∃ s, relativePath doc = Str s)
  ∧ kept_num (startLine doc)
  ∧ kept_num (endLine doc)
  ∧ (∃ s, fileExtension doc = Str s)
  ∧ (∃ l, metadata doc = Obj l).

(** [{ ...doc, vector }] *)
Definition with_vector (v : list number) (doc : VectorDocument) : VectorDocument :=
  {| id := id doc;
     vector := v;
     content := content doc;
     relativePath := relativePath doc;
     startLine := startLine doc;
     endLine := endLine doc;
     fileExtension := fileExtension doc;
     metadata := metadata doc |}.

(** The vector names a collection declares, a point fills and a search
    addresses; [None] is the single unnamed vector. *)
Definition declared_names (vs : Qdrant.VectorsConfig) : option (list jsstring) :=
  match vs with
  | Qdrant.SingleVector _ => None
  | Qdrant.NamedVectors l => Some l.*1
  end.

Definition filled_names (pv : Qdrant.PointVector) : option (list jsstring) :=
  match pv with
  | Qdrant.Unnamed _ => None
  | Qdrant.Named l => Some l.*1
  end.

Definition addressed_name (qv : Qdrant.QueryVector) : option (list jsstring) :=
  match qv with
  | Qdrant.Bare _ => None
  | Qdrant.NamedQuery n _ => Some [n]
  end.

(** The errors of the backend that a method turns into a value: only
    [hasCollection] does, on a not-found error. *)
Definition swallowed {R} (op : operation R) (e : error) : bool :=
  match op with
  | HasCollection _ => is_not_found e
  | _ => false
  end.

(** The configuration that [main] of the usage example builds from the
    environment: [QDRANT_HOST || 'localhost'] and the number that
    [parseInt(QDRANT_PORT || '6333', 10)] returned. *)
Definition example_config (QDRANT_HOST : option jsstring) (parsed_port : number)
    : QdrantConfig :=
  {| url := None;
     apiKey := None;
     port := Some parsed_port;
     host := Some (if truthy_opt QDRANT_HOST then default [] QDRANT_HOST
                   else str "localhost");
     timeout := None |}.

(** A hybrid request list whose first request is sparse, with its own
    limit, and whose second is dense. *)
Definition sparse_first : list HybridSearchRequest :=
  [ {| anns_field := str "sparse_vector"; data := Str (str "parse config");
       req_limit := Some 7%float |};
    {| anns_field := str "vector"; data := Arr [Num 1; Num 0];
       req_limit := Some 5%float |} ].

(** A scroll record whose payload has a property named id. *)
Definition shadowing_record : Qdrant.Record_ :=
  {| Qdrant.record_id := Str (str "point-1");
     Qdrant.record_payload :=
       Some {[ str "id" := Str (str "chunk-7"); str "content" := Str (str "x") ]} |}.

End Codec.

(** * Properties *)

(** ** Strings and numbers *)

Module JsFacts.
Import Js.

Abbreviation spaces ws := (Forall (λ c, is_space c = true) ws).

Lemma strip_prefix_Some p s r : strip_prefix p s = Some r ↔ s = p ++ r.
Proof.
  revert s; induction p as [|a p IH]; intros [|b s]; simpl.
  - split; congruence.
  - split; congruence.
  - split; [discriminate | intros H; discriminate H].
  - destruct (N.eqb_spec a b) as [->|Hne].
    + rewrite IH. split; [intros ->; reflexivity | congruence].
    + split; [discriminate | intros [=]; congruence].
Qed.

Lemma strip_prefix_app p r : strip_prefix p (p ++ r) = Some r.
Proof. by apply strip_prefix_Some. Qed.

(** [includes] is the substring test. *)
Lemma includes_true s p :
  includes s p = true ↔ ∃ pre suf, s = pre ++ p ++ suf.
Proof.
  induction s as [|c s IH]; simpl.
  - destruct (strip_prefix p []) as [r|] eqn:E.
    + apply strip_prefix_Some in E. split; [|done].
      intros _. exists [], r. done.
    + split; [done|]. intros (pre & suf & H).
      symmetry in H. apply app_eq_nil in H as [-> H].
      apply app_eq_nil in H as [-> ->]. simpl in E. done.
  - destruct (strip_prefix p (c :: s)) as [r|] eqn:E.
    + apply strip_prefix_Some in E. split; [|done].
      intros _. exists [], r. done.
    + rewrite IH. split.
      * intros (pre & suf & ->). exists (c :: pre), suf. done.
      * intros (pre & suf & H). destruct pre as [|c' pre].
        -- simpl in H. rewrite H, strip_prefix_app in E. done.
        -- injection H as -> ->. eauto.
Qed.

Lemma trimStart_spaces ws s : spaces ws → trimStart (ws ++ s) = trimStart s.
Proof. induction 1 as [|c ws Hc _ IH]; simpl; [done|]. by rewrite Hc. Qed.

Lemma trimStart_head c s : is_space c = false → trimStart (c :: s) = c :: s.
Proof. simpl. by intros ->. Qed.

(** What [trimStart] removes is white space, and it stops at the first
    unit that is not. *)
Lemma trimStart_split s :
  ∃ ws, s = ws ++ trimStart s ∧ spaces ws
        ∧ match trimStart s with c :: _ => is_space c = false | [] => True end.
Proof.
  induction s as [|c s (ws & Hs & Hws & Hhd)]; simpl.
  - exists []. done.
  - destruct (is_space c) eqn:Hc.
    + exists (c :: ws). split_and!; [simpl; congruence | by constructor | done].
    + exists []. done.
Qed.

Lemma trimStart_nil s : trimStart s = [] ↔ spaces s.
Proof.
  split.
  - intros H. destruct (trimStart_split s) as (ws & Hs & Hws & _).
    rewrite H, app_nil_r in Hs. by subst.
  - intros H. rewrite <- (app_nil_r s). by rewrite trimStart_spaces.
Qed.

(** [s.trim() === ''] exactly when [s] is white space throughout. *)
Lemma trim_nil s : trim s = [] ↔ spaces s.
Proof.
  unfold trim. rewrite <- (reverse_nil (A:=N)) at 1.
  split.
  - intros H%(inj reverse). apply trimStart_nil in H.
    rewrite Forall_reverse in H.
    destruct (trimStart_split s) as (ws & Hs & Hws & _).
    rewrite Hs. apply Forall_app. by split.
  - intros H. f_equal. apply trimStart_nil. rewrite Forall_reverse.
    apply trimStart_nil in H. rewrite H. constructor.
Qed.

Lemma num_or_truthy x d : truthy_num x = true → num_or (Some x) d = x.
Proof. simpl. by intros ->. Qed.

Lemma num_or_falsy x d : truthy_num x = false → num_or (Some x) d = d.
Proof. simpl. by intros ->. Qed.

(** The falsy numbers are the zeros and NaN. *)
Lemma truthy_num_false x :
  truthy_num x = false ↔ PrimFloat.eqb x 0 = true ∨ PrimFloat.is_nan x = true.
Proof.
  unfold truthy_num. rewrite negb_false_iff, orb_true_iff. done.
Qed.

End JsFacts.

(** ** The regular expression of [query] *)

Module FilterFacts.
Import Js JsFacts Filter.

Lemma span_unquoted_split s lit rest :
  span_unquoted s = (lit, rest) →
  s = lit ++ rest ∧ (dquote ∉ lit)
  ∧ match rest with c :: _ => c = dquote | [] => True end.
Proof.
  revert lit rest; induction s as [|c s IH]; intros lit rest; simpl.
  - intros [= <- <-]. split_and!; [done | apply not_elem_of_nil | done].
  - destruct (N.eqb_spec c dquote) as [->|Hc].
    + intros [= <- <-]. split_and!; [done | apply not_elem_of_nil | done].
    + destruct (span_unquoted s) as [lit' rest'].
      intros [= <- <-]. destruct (IH _ _ eq_refl) as (-> & Hlit & Hrest).
      split_and!; [done | | done].
      rewrite not_elem_of_cons. split; [congruence | done].
Qed.

Lemma span_unquoted_closed lit r :
  dquote ∉ lit → span_unquoted (lit ++ dquote :: r) = (lit, dquote :: r).
Proof.
  induction lit as [|c lit IH]; simpl.
  - done.
  - rewrite not_elem_of_cons. intros [Hc Hlit].
    destruct (N.eqb_spec c dquote) as [->|_]; [done|].
    by rewrite IH.
Qed.

Lemma strip_prefix_cons a p s : strip_prefix (a :: p) (a :: s) = strip_prefix p s.
Proof. simpl. by rewrite N.eqb_refl. Qed.

(** The matcher computes the language of the pattern. *)
Lemma match_here_spec s lit : match_here s = Some lit ↔ pattern_at s lit.
Proof.
  unfold match_here, pattern_at, skip_spaces. split.
  - destruct (strip_prefix (str "relativePath") s) as [s1|] eqn:E1;
      cbn [mbind option_bind]; [|done].
    destruct (strip_prefix (str "==") (trimStart s1)) as [s2|] eqn:E2;
      cbn [mbind option_bind]; [|done].
    destruct (strip_prefix [dquote] (trimStart s2)) as [s3|] eqn:E3;
      cbn [mbind option_bind]; [|done].
    destruct (span_unquoted s3) as [l rest] eqn:E4.
    destruct l as [|c l]; [done|]. destruct rest as [|q rest]; [done|].
    intros [= <-].
    apply strip_prefix_Some in E1, E2, E3.
    destruct (trimStart_split s1) as (ws1 & H1 & Hws1 & _).
    destruct (trimStart_split s2) as (ws2 & H2 & Hws2 & _).
    apply span_unquoted_split in E4 as (-> & Hlit & ->).
    exists ws1, ws2, rest. split_and!; [|done..].
    rewrite E1, H1, E2, H2, E3. done.
  - intros (ws1 & ws2 & rest & -> & Hws1 & Hws2 & Hne & Hlit).
    rewrite strip_prefix_app. cbn [mbind option_bind].
    change (str "==") with [61%N; 61%N]. cbn [app].
    rewrite trimStart_spaces by done.
    rewrite (trimStart_head 61) by done.
    rewrite !strip_prefix_cons. cbn [strip_prefix mbind option_bind].
    rewrite trimStart_spaces by done.
    rewrite (trimStart_head dquote) by done.
    rewrite N.eqb_refl. cbn [mbind option_bind].
    rewrite span_unquoted_closed by done.
    destruct lit; done.
Qed.

Lemma regex_match_unfold s :
  regex_match s =
    match match_here s with
    | Some lit => Some lit
    | None => match s with [] => None | _ :: s' => regex_match s' end
    end.
Proof. by destruct s. Qed.

(** [match] returns the group of the leftmost match. *)
Lemma regex_match_Some s lit : regex_match s = Some lit ↔ leftmost_match s lit.
Proof.
  split.
  - induction s as [|c s IH]; rewrite regex_match_unfold.
    + destruct (match_here []) as [l|] eqn:E; [|done].
      intros [= ->]. exists [], []. split_and!; [done | by apply match_here_spec |].
      simpl. lia.
    + destruct (match_here (c :: s)) as [l|] eqn:E.
      * intros [= ->]. exists [], (c :: s).
        split_and!; [done | by apply match_here_spec |]. simpl. lia.
      * intros (pre & suf & -> & Hat & Hmin)%IH. exists (c :: pre), suf.
        split_and!; [done..|].
        intros [|c' pre'] suf' lit' Heq Hlen Hat'.
        -- simpl in Heq. subst suf'. apply match_here_spec in Hat'. congruence.
        -- injection Heq as -> Heq.
           apply (Hmin pre' suf' lit' Heq); [simpl in Hlen; lia | done].
  - intros (pre & suf & -> & Hat & Hmin).
    induction pre as [|c pre IH]; rewrite regex_match_unfold.
    + simpl. apply match_here_spec in Hat. by rewrite Hat.
    + destruct (match_here ((c :: pre) ++ suf)) as [l|] eqn:E.
      * apply match_here_spec in E.
        destruct (Hmin [] _ l eq_refl); [simpl; lia | done].
      * simpl. apply IH. intros pre' suf' lit' Heq Hlen.
        apply (Hmin (c :: pre')); [simpl; congruence | simpl; lia].
Qed.

Lemma regex_match_None s : regex_match s = None ↔ no_match s.
Proof.
  split.
  - induction s as [|c s IH]; rewrite regex_match_unfold.
    + destruct (match_here []) eqn:E; [done|]. intros _ pre suf lit Heq Hat.
      symmetry in Heq. apply app_eq_nil in Heq as [_ ->].
      apply match_here_spec in Hat. congruence.
    + destruct (match_here (c :: s)) eqn:E; [done|].
      intros Hs [|c' pre] suf lit Heq Hat.
      * simpl in Heq. subst suf. apply match_here_spec in Hat. congruence.
      * injection Heq as -> Heq. exact (IH Hs _ _ _ Heq Hat).
  - induction s as [|c s IH]; intros Hno; rewrite regex_match_unfold.
    + destruct (match_here []) as [l|] eqn:E; [|done].
      apply match_here_spec in E. destruct (Hno [] [] l eq_refl E).
    + destruct (match_here (c :: s)) as [l|] eqn:E.
      * apply match_here_spec in E. destruct (Hno [] _ l eq_refl E).
      * apply IH. intros pre suf lit -> Hat.
        exact (Hno (c :: pre) suf lit eq_refl Hat).
Qed.

(** Every filter has a leftmost match or none at all. *)
Lemma match_or_not s : (∃ lit, leftmost_match s lit) ∨ no_match s.
Proof.
  destruct (regex_match s) as [lit|] eqn:E.
  - left. exists lit. by apply regex_match_Some.
  - right. by apply regex_match_None.
Qed.

Lemma pattern_not_spaces pre suf lit : pattern_at suf lit → ¬ spaces (pre ++ suf).
Proof.
  intros (ws1 & ws2 & rest & -> & _) [_ H]%Forall_app.
  apply Forall_inv in H. discriminate H.
Qed.

(** The guard on the empty and the blank filter changes nothing: the
    pattern would not match them. *)
Lemma qdrantFilter_regex filter :
  qdrantFilter filter =
    (λ lit, {| must := [ {| key := str "relativePath"; match_value := lit |} ] |})
      <$> regex_match filter.
Proof.
  unfold qdrantFilter.
  destruct (regex_match filter) as [lit|] eqn:E; simpl; [|by case_match].
  apply regex_match_Some in E as (pre & suf & -> & Hat & _).
  pose proof (pattern_not_spaces pre _ _ Hat) as Hsp.
  rewrite <- trim_nil in Hsp.
  rewrite bool_decide_eq_false_2 by done.
  destruct (pre ++ suf) eqn:E'; [|done].
  destruct Hsp. done.
Qed.

End FilterFacts.

(** ** The adapter's methods *)

Module AdapterFacts.
Import Js JsFacts Filter Adapter.

Section WithBackend.
Context {B : Type}.
Implicit Types (this : QdrantVectorDatabase B) (c : Qdrant.client B) (w : world B).

Lemma ensureInitialized_ready this c w :
  ready this c → ensureInitialized this w = (w, inr ()).
Proof. intros [H1 H2]. unfold ensureInitialized. by rewrite H1, H2. Qed.

Lemma gated_ready {A} this c (body : Async.t B A) w :
  ready this c → (ensureInitialized this;; body) w = body w.
Proof.
  intros H. unfold mbind, async_bind, bind.
  by rewrite (ensureInitialized_ready _ _ _ H).
Qed.

Lemma gated_no_handle {A} this (body : Async.t B A) w :
  initializationPromise this = Fulfilled → client this = None →
  (ensureInitialized this;; body) w = (w, inl NotInitialized).
Proof.
  intros H1 H2. unfold mbind, async_bind, bind, ensureInitialized.
  by rewrite H1, H2.
Qed.

Lemma gated_rejected {A} this (body : Async.t B A) w reason :
  initializationPromise this = Rejected reason →
  (ensureInitialized this;; body) w = (w, inl reason).
Proof.
  intros H1. unfold mbind, async_bind, bind, ensureInitialized.
  by rewrite H1.
Qed.

(** A call through a handle reaches the backend and is recorded. *)
Lemma invoke_Some {R} c (k : Qdrant.call R) w :
  invoke (Some c) k w =
    ({| backend := (Qdrant.perform c k (backend w)).1;
        trace := trace w ++ [Qdrant.Issued k] |},
     (Qdrant.perform c k (backend w)).2).
Proof. simpl. by destruct (Qdrant.perform c k (backend w)). Qed.

Lemma bind_invoke {R A} c (k : Qdrant.call R) (f : R → Async.t B A) w :
  (x ← invoke (Some c) k; f x) w =
    let w' := {| backend := (Qdrant.perform c k (backend w)).1;
                 trace := trace w ++ [Qdrant.Issued k] |} in
    match (Qdrant.perform c k (backend w)).2 with
    | inr x => f x w'
    | inl e => (w', inl e)
    end.
Proof. unfold mbind, async_bind, bind. by rewrite invoke_Some. Qed.

Lemma hybridSearch_dense this c collectionName searchRequests options w :
  ready this c →
  hybridSearch this collectionName searchRequests options w =
    match dense_vector searchRequests with
    | Some v =>
        (searchResult ←
           invoke (Some c)
             (Qdrant.search collectionName
                {| Qdrant.search_vector := Qdrant.NamedQuery (str "dense") v;
                   Qdrant.search_limit :=
                     num_or (options ≫= limit)
                       (num_or (head searchRequests ≫= req_limit) 10);
                   Qdrant.score_threshold := None;
                   Qdrant.search_with_payload := true;
                   Qdrant.search_with_vector := false |});
         mret (to_result [] <$> searchResult)) w
    | None => (w, inl InvalidRequest)
    end.
Proof.
  intros H. unfold hybridSearch, dense_vector.
  rewrite (gated_ready _ _ _ _ H). destruct H as [_ ->].
  destruct (find is_dense searchRequests) as [req|]; [|done].
  by destruct (data req).
Qed.

Ltac open_method :=
  unfold createCollection, createHybridCollection, dropCollection, hasCollection,
    listCollections, insert, insertHybrid, search, delete, query.

Lemma proceeds this c {R} (op : operation R) w :
  ready this c → accepted op → one_call c w (call_method this op w).1.
Proof.
  intros H Hacc. pose proof H as [_ Hc]. unfold one_call.
  destruct op; simpl in *;
    try (rewrite (hybridSearch_dense _ _ _ _ _ _ H);
         destruct Hacc as [v ->]);
    open_method; rewrite ?(gated_ready _ _ _ _ H), ?Hc;
    unfold try_catch; rewrite ?bind_invoke, ?invoke_Some; simpl;
    try (eexists _, _; reflexivity).
  - destruct (Qdrant.perform c _ _).2 as [e|[]]; simpl;
      [destruct (is_not_found e)|]; eexists _, _; reflexivity.
  - destruct (Qdrant.perform c _ _).2; eexists _, _; reflexivity.
  - destruct (Qdrant.perform c _ _).2; eexists _, _; reflexivity.
  - destruct (Qdrant.perform c _ _).2; eexists _, _; reflexivity.
  - destruct (Qdrant.perform c _ _).2; eexists _, _; reflexivity.
Qed.

(** However the client constructor behaves, a new instance is either ready
    or has a rejected setup and no handle: the constructor never leaves a
    fulfilled setup without a handle. *)
Lemma new_settled (QdrantClient : Qdrant.ClientParams → error + Qdrant.client B) config :
  (∃ c, ready (new QdrantClient config) c)
  ∨ (∃ e, initializationPromise (new QdrantClient config) = Rejected e
          ∧ client (new QdrantClient config) = None).
Proof.
  unfold new. destruct (QdrantClient (clientConfig config)) as [e|c].
  - right. by exists e.
  - left. by exists c.
Qed.

(** C3, as amended.  Every public method awaits the setup first.  When the
    setup settled without a client handle, the method fails with the
    NotInitialized error and reaches no backend; when the setup itself
    failed, the method fails with the setup's own error (not with
    NotInitialized), again before any backend call; when the setup
    succeeded the gate lets the method through, and a method whose
    arguments pass its own checks performs its backend call. *)
Theorem gate_before_backend this {R} (op : operation R) w :
  match initializationPromise this, client this with
  | Rejected reason, _ => call_method this op w = (w, inl reason)
  | Fulfilled, None => call_method this op w = (w, inl NotInitialized)
  | Fulfilled, Some c =>
      ensureInitialized this w = (w, inr ())
      ∧ (accepted op → one_call c w (call_method this op w).1)
  end.
Proof.
  destruct (initializationPromise this) as [|reason] eqn:Hp;
    [destruct (client this) as [c|] eqn:Hc|].
  - assert (ready this c) as H by done. split.
    + by apply ensureInitialized_ready with c.
    + by apply proceeds.
  - destruct op; simpl; by apply gated_no_handle.
  - destruct op; simpl; by apply gated_rejected.
Qed.

End WithBackend.

(** The instance of the theorem for a setup that left no handle, and for a
    setup that succeeded. *)
Lemma gate_before_backend_witness :
  call_method Sample.no_handle (HasCollection Memory.code) Sample.empty
    = (Sample.empty, inl NotInitialized)
  ∧ one_call Memory.client Sample.empty
      (call_method Sample.db (Delete Memory.code []) Sample.empty).1.
Proof.
  split.
  - exact (gate_before_backend Sample.no_handle (HasCollection Memory.code) Sample.empty).
  - apply (gate_before_backend Sample.db (Delete Memory.code []) Sample.empty).
    exact I.
Defined.

(** C3, as stated, fails when the setup failed: the client constructor
    refuses the url, no handle exists, and the method fails with the
    constructor's error, which is not the NotInitialized error. *)
Lemma gate_counterexample :
  let this := new Memory.QdrantClient Sample.bad_url in
  client this = None
  ∧ ∃ e, call_method this (HasCollection Memory.code) Sample.empty
           = (Sample.empty, inl e)
         ∧ e ≠ NotInitialized.
Proof.
  split; [reflexivity|]. eexists. split; [reflexivity|]. discriminate.
Qed.

Lemma truthy_opt_false s : truthy_opt s = false ↔ Stated.blank s.
Proof.
  unfold Stated.blank. destruct s as [[|a s]|]; simpl; split; try done; eauto.
  intros [|]; done.
Qed.

Lemma truthy_opt_true s : truthy_opt s = true ↔ ∃ v, s = Some v ∧ v ≠ [].
Proof.
  destruct s as [[|a s]|]; simpl; split; try done.
  all: try (intros (v & [= <-] & Hv); done).
  all: try (intros (v & [=] & _); done).
  all: intros _; by eexists.
Qed.

Lemma truthy_opt_num_false x : truthy_opt_num x = false ↔ Stated.null_num x.
Proof.
  unfold Stated.null_num. destruct x as [n|]; simpl.
  - rewrite truthy_num_false. split; [intros H; right; eauto|].
    intros [|(m & [= <-] & H)]; done.
  - split; [by left | done].
Qed.

(** C4, as amended.  The connection target follows the precedence url,
    host, localhost, where a url or host counts only when it is a
    non-empty string and the port falls back to 6333 when it is absent,
    zero or NaN.  An apiKey is passed through when it is non-empty and a
    timeout when it is neither zero nor NaN; otherwise the property is
    left unset. *)
Theorem clientConfig_precedence (config : QdrantConfig) :
  let p := clientConfig config in
  (∀ u, url config = Some u → u ≠ [] →
     Qdrant.url p = Some u ∧ Qdrant.host p = None ∧ Qdrant.port p = None)
  ∧ (Stated.blank (url config) → ∀ h, host config = Some h → h ≠ [] →
       Qdrant.url p = None ∧ Qdrant.host p = Some h
       ∧ (∀ n, port config = Some n → truthy_num n = true → Qdrant.port p = Some n)
       ∧ (Stated.null_num (port config) → Qdrant.port p = Some 6333%float))
  ∧ (Stated.blank (url config) → Stated.blank (host config) →
       Qdrant.url p = None ∧ Qdrant.host p = Some (str "localhost")
       ∧ Qdrant.port p = Some 6333%float)
  ∧ (∀ k, apiKey config = Some k → k ≠ [] → Qdrant.apiKey p = Some k)
  ∧ (Stated.blank (apiKey config) → Qdrant.apiKey p = None)
  ∧ (∀ t, timeout config = Some t → truthy_num t = true → Qdrant.timeout p = Some t)
  ∧ (Stated.null_num (timeout config) → Qdrant.timeout p = None).
Proof.
  assert (∀ s v, s = Some v → v ≠ [] → truthy_opt s = true) as Ht.
  { intros s v -> Hv. apply truthy_opt_true. eauto. }
  assert (∀ x n, x = Some n → truthy_num n = true → truthy_opt_num x = true) as Hn.
  { by intros x n ->. }
  unfold clientConfig. split_and!.
  - intros u Hu Hne. rewrite (Ht _ _ Hu Hne).
    destruct (truthy_opt (apiKey config)), (truthy_opt_num (timeout config)); done.
  - intros Hu%truthy_opt_false h Hh Hne. rewrite Hu, (Ht _ _ Hh Hne).
    destruct (truthy_opt (apiKey config)), (truthy_opt_num (timeout config));
      (split_and!; [done..| |]); simpl.
    all: try (intros n -> Hn'; by rewrite num_or_truthy).
    all: intros [->|(n & -> & Hz%truthy_num_false)]; [done|by rewrite num_or_falsy].
  - intros Hu%truthy_opt_false Hh%truthy_opt_false. rewrite Hu, Hh.
    destruct (truthy_opt (apiKey config)), (truthy_opt_num (timeout config)); done.
  - intros k Hk Hne. rewrite (Ht _ _ Hk Hne).
    destruct (truthy_opt_num (timeout config)); done.
  - intros Hk%truthy_opt_false. rewrite Hk.
    destruct (truthy_opt (url config)), (truthy_opt (host config)),
      (truthy_opt_num (timeout config)); done.
  - intros t Ht' Htr. rewrite (Hn _ _ Ht' Htr). done.
  - intros Hz%truthy_opt_num_false. rewrite Hz.
    destruct (truthy_opt (url config)), (truthy_opt (host config)),
      (truthy_opt (apiKey config)); done.
Qed.

(** The theorem at [{ host: 'qdrant', port: 0, timeout: 0 }]: the host is
    used, with port 6333 and no timeout. *)
Lemma clientConfig_precedence_witness :
  Qdrant.host (clientConfig Sample.zeros) = Some (str "qdrant")
  ∧ Qdrant.port (clientConfig Sample.zeros) = Some 6333%float
  ∧ Qdrant.timeout (clientConfig Sample.zeros) = None.
Proof.
  pose proof (clientConfig_precedence Sample.zeros) as (_ & Hhost & _ & _ & _ & _ & Htimeout).
  destruct (Hhost (or_introl eq_refl) (str "qdrant") eq_refl) as (_ & Hh & _ & Hp);
    [discriminate|].
  split_and!.
  - exact Hh.
  - apply Hp. right. exists 0%float. split; [reflexivity | by left].
  - apply Htimeout. right. exists 0%float. split; [reflexivity | by left].
Defined.

(** C4, as stated, fails at [{ host: 'qdrant', port: 0, timeout: 0 }]: the
    supplied port and timeout are not the ones the client receives. *)
Lemma clientConfig_counterexample :
  ¬ Stated.connection Sample.zeros (clientConfig Sample.zeros).
Proof.
  intros (_ & _ & _ & _ & Ht).
  specialize (Ht 0%float eq_refl). discriminate Ht.
Qed.

Section Batches.
Context {B : Type}.
Implicit Types (this : QdrantVectorDatabase B) (c : Qdrant.client B) (w : world B).

(** C10.  None of [insert], [insertHybrid] and [delete] checks that its list
    is non-empty: given the empty list, each performs its upsert or delete
    call with zero points, and its outcome is the outcome of that call. *)
Theorem empty_batch_reaches_backend this c collectionName w :
  ready this c →
  let no_points :=
    Qdrant.upsert collectionName
      {| Qdrant.upsert_wait := true; Qdrant.upsert_points := [] |} in
  let no_ids :=
    Qdrant.delete collectionName
      {| Qdrant.delete_wait := true; Qdrant.delete_points := [] |} in
  insert this collectionName [] w = invoke (Some c) no_points w
  ∧ insertHybrid this collectionName [] w = invoke (Some c) no_points w
  ∧ delete this collectionName [] w = invoke (Some c) no_ids w
  ∧ trace (insert this collectionName [] w).1 = trace w ++ [Qdrant.Issued no_points]
  ∧ trace (insertHybrid this collectionName [] w).1 = trace w ++ [Qdrant.Issued no_points]
  ∧ trace (delete this collectionName [] w).1 = trace w ++ [Qdrant.Issued no_ids].
Proof.
  intros H no_points no_ids. pose proof H as [_ Hc].
  assert (insert this collectionName [] w = invoke (Some c) no_points w) as E1.
  { unfold insert. by rewrite (gated_ready _ _ _ _ H), Hc. }
  assert (insertHybrid this collectionName [] w = invoke (Some c) no_points w) as E2.
  { unfold insertHybrid. by rewrite (gated_ready _ _ _ _ H), Hc. }
  assert (delete this collectionName [] w = invoke (Some c) no_ids w) as E3.
  { unfold delete. by rewrite (gated_ready _ _ _ _ H), Hc. }
  rewrite E1, E2, E3, !invoke_Some. done.
Qed.

(** C6.  [hasCollection] performs one lookup.  When the lookup succeeds the
    answer is true; when it fails with status 404, or with a message that
    contains the text not found, the answer is false; every other failure
    is rethrown as it is. *)
Theorem hasCollection_outcome this c collectionName w :
  ready this c →
  let k := Qdrant.getCollection collectionName in
  let r := Qdrant.perform c k (backend w) in
  let not_found e :=
    strict_eq_num (status e) 404 = true
    ∨ ∃ m pre suf, message e = Some m ∧ m = pre ++ str "not found" ++ suf in
  (hasCollection this collectionName w).1
    = {| backend := r.1; trace := trace w ++ [Qdrant.Issued k] |}
  ∧ match r.2 with
    | inr _ => (hasCollection this collectionName w).2 = inr true
    | inl e =>
        (not_found e → (hasCollection this collectionName w).2 = inr false)
        ∧ (¬ not_found e → (hasCollection this collectionName w).2 = inl e)
    end.
Proof.
  intros H k r not_found. pose proof H as [_ Hc].
  unfold hasCollection. rewrite (gated_ready _ _ _ _ H), Hc.
  unfold try_catch. rewrite bind_invoke. fold k r. cbv zeta.
  assert (∀ e, is_not_found e = true ↔ not_found e) as Hnf.
  { intros e. unfold is_not_found, not_found. rewrite orb_true_iff.
    apply or_iff_compat_l. destruct (message e) as [m|].
    - rewrite includes_true. split.
      + intros (pre & suf & ->). by exists (pre ++ str "not found" ++ suf), pre, suf.
      + intros (m' & pre & suf & [= <-] & ->). eauto.
    - split; [done|]. by intros (m & pre & suf & [=] & _). }
  destruct r.2 as [e|[]]; simpl.
  - destruct (is_not_found e) eqn:E; simpl.
    + split_and!; [done| done |]. intros Hn. apply Hnf in E. done.
    + split_and!; [done| |done]. intros Hn%Hnf. congruence.
  - done.
Qed.

End Batches.

(** The theorem on the memory backend: an empty insert appends the upsert
    of no points to the trace. *)
Lemma empty_batch_reaches_backend_witness :
  trace (insert Sample.db Memory.code [] Sample.empty).1
    = [ Qdrant.Issued
          (Qdrant.upsert Memory.code
             {| Qdrant.upsert_wait := true; Qdrant.upsert_points := [] |}) ].
Proof.
  apply (empty_batch_reaches_backend Sample.db Memory.client Memory.code Sample.empty).
  split; reflexivity.
Defined.

(** The theorem on the memory backend: a collection that does not exist is
    a 404 and the answer is false. *)
Lemma hasCollection_outcome_witness :
  (hasCollection Sample.db (str "docs") Sample.empty).2 = inr false.
Proof.
  apply (hasCollection_outcome Sample.db Memory.client (str "docs") Sample.empty).
  - split; reflexivity.
  - left. reflexivity.
Defined.

Section Searching.
Context {B : Type}.
Implicit Types (this : QdrantVectorDatabase B) (c : Qdrant.client B) (w : world B).

Lemma search_run this c collectionName queryVector options w :
  ready this c →
  let k :=
    Qdrant.search collectionName
      {| Qdrant.search_vector := Qdrant.Bare queryVector;
         Qdrant.search_limit := num_or (options ≫= topK) 10;
         Qdrant.score_threshold := Some (num_or (options ≫= threshold) 0);
         Qdrant.search_with_payload := true;
         Qdrant.search_with_vector := false |} in
  search this collectionName queryVector options w =
    ({| backend := (Qdrant.perform c k (backend w)).1;
        trace := trace w ++ [Qdrant.Issued k] |},
     match (Qdrant.perform c k (backend w)).2 with
     | inr hits => inr (to_result queryVector <$> hits)
     | inl e => inl e
     end).
Proof.
  intros H k. pose proof H as [_ Hc]. unfold search.
  rewrite (gated_ready _ _ _ _ H), Hc, bind_invoke. fold k. cbv zeta.
  by destruct (Qdrant.perform c k (backend w)).2.
Qed.

Lemma hybridSearch_run this c collectionName searchRequests options v w :
  ready this c → dense_vector searchRequests = Some v →
  let k :=
    Qdrant.search collectionName
      {| Qdrant.search_vector := Qdrant.NamedQuery (str "dense") v;
         Qdrant.search_limit :=
           num_or (options ≫= limit) (num_or (head searchRequests ≫= req_limit) 10);
         Qdrant.score_threshold := None;
         Qdrant.search_with_payload := true;
         Qdrant.search_with_vector := false |} in
  hybridSearch this collectionName searchRequests options w =
    ({| backend := (Qdrant.perform c k (backend w)).1;
        trace := trace w ++ [Qdrant.Issued k] |},
     match (Qdrant.perform c k (backend w)).2 with
     | inr hits => inr (to_result [] <$> hits)
     | inl e => inl e
     end).
Proof.
  intros H Hv k. rewrite (hybridSearch_dense _ _ _ _ _ _ H), Hv, bind_invoke.
  fold k. cbv zeta. by destruct (Qdrant.perform c k (backend w)).2.
Qed.

(** C5, as amended.  The request carries as limit the caller's topK, or 10
    when topK is omitted, zero or NaN, and as score threshold the caller's
    threshold, or 0 when it is omitted, zero or NaN.  [search] returns one
    result per hit, with the hit's score, in the backend's order: when the
    backend honours the limit and the threshold, so does the result, and
    zero hits give the empty sequence, not an error. *)
Theorem search_limit_threshold this c collectionName queryVector options w :
  ready this c →
  ∃ lim thr,
    (Stated.null_num (options ≫= topK) → lim = 10%float)
    ∧ (∀ k, options ≫= topK = Some k → truthy_num k = true → lim = k)
    ∧ (Stated.null_num (options ≫= threshold) → thr = 0%float)
    ∧ (∀ t, options ≫= threshold = Some t → truthy_num t = true → thr = t)
    ∧ let k :=
        Qdrant.search collectionName
          {| Qdrant.search_vector := Qdrant.Bare queryVector;
             Qdrant.search_limit := lim;
             Qdrant.score_threshold := Some thr;
             Qdrant.search_with_payload := true;
             Qdrant.search_with_vector := false |} in
      let r := Qdrant.perform c k (backend w) in
      (search this collectionName queryVector options w).1
        = {| backend := r.1; trace := trace w ++ [Qdrant.Issued k] |}
      ∧ match r.2 with
        | inl e => (search this collectionName queryVector options w).2 = inl e
        | inr hits =>
            ∃ results,
              (search this collectionName queryVector options w).2 = inr results
              ∧ Forall2 (λ h r, score r = Qdrant.score h) hits results
              ∧ (within lim hits = true → within lim results = true)
              ∧ (Forall (λ h, PrimFloat.leb thr (Qdrant.score h) = true) hits →
                 Forall (λ r, PrimFloat.leb thr (score r) = true) results)
              ∧ (hits = [] → results = [])
        end.
Proof.
  intros H. exists (num_or (options ≫= topK) 10), (num_or (options ≫= threshold) 0).
  assert (∀ x d, Stated.null_num x → num_or x d = d) as Hnull.
  { intros x d [->|(n & -> & Hz%truthy_num_false)]; [done|by apply num_or_falsy]. }
  split_and!.
  - apply Hnull.
  - intros k ->. apply num_or_truthy.
  - apply Hnull.
  - intros k ->. apply num_or_truthy.
  - cbv zeta. rewrite (search_run _ _ _ _ _ _ H). cbn [fst snd].
    split; [done|]. destruct (Qdrant.perform c _ (backend w)).2 as [e|hits]; [done|].
    exists (to_result queryVector <$> hits). split_and!.
    + done.
    + induction hits; constructor; done.
    + unfold within. by rewrite length_fmap.
    + intros Hs. rewrite Forall_fmap. exact Hs.
    + by intros ->.
Qed.

End Searching.

(** The theorem on the memory backend, three documents stored: with topK 2
    and threshold 0.5 the request carries both and two results come back. *)
Lemma search_limit_threshold_witness :
  ∃ results,
    (search Sample.db Memory.code [1%float; 0%float]
       (Some {| topK := Some 2%float; threshold := Some 0.5%float |}) Sample.seeded).2
      = inr results
    ∧ within 2%float results = true.
Proof.
  destruct (search_limit_threshold Sample.db Memory.client Memory.code
              [1%float; 0%float]
              (Some {| topK := Some 2%float; threshold := Some 0.5%float |})
              Sample.seeded)
    as (lim & thr & _ & Hlim & _ & Hthr & _ & Hr).
  { split; reflexivity. }
  rewrite (Hlim 2%float eq_refl eq_refl), (Hthr 0.5%float eq_refl eq_refl) in Hr.
  destruct Hr as (results & Hres & _ & Hwithin & _).
  exists results. split; [exact Hres|]. apply Hwithin. reflexivity.
Defined.

(** C5, as stated, fails for a caller that passes topK 0: the request goes
    out with limit 10, the backend, which honours it, returns the three
    documents it holds, and all three come back. *)
Lemma search_counterexample :
  let options := Some {| topK := Some 0%float; threshold := None |} in
  ∃ results,
    (search Sample.db Memory.code [1%float; 0%float] options Sample.seeded).2
      = inr results
    ∧ length results = 3
    ∧ ¬ Stated.search_bounds options results.
Proof.
  eexists. split_and!; [reflexivity | reflexivity |].
  intros [Hwithin _]. discriminate Hwithin.
Qed.

Section Decoding.
Context {B : Type}.
Implicit Types (this : QdrantVectorDatabase B) (c : Qdrant.client B) (w : world B).

Lemma get_lacking hit field :
  lacks hit field → get (default ∅ (Qdrant.payload hit)) (str field) = Undefined.
Proof.
  unfold lacks, get. destruct (Qdrant.payload hit) as [payload|]; simpl.
  - by intros ->.
  - intros _. by rewrite lookup_empty.
Qed.

(** C7.  A provenance field that the payload of a hit lacks is decoded to
    its typed default: the empty string for content, relativePath and
    fileExtension, 0 for startLine and endLine, the empty mapping for
    metadata.  Decoding never fails: [search] and [hybridSearch] return the
    decoded hits whenever the backend returns hits, and fail only with the
    error of the backend call. *)
Theorem decode_defaults this c collectionName w :
  ready this c →
  (∀ vector hit,
     let d := document (to_result vector hit) in
     (lacks hit "content" → content d = Str [])
     ∧ (lacks hit "relativePath" → relativePath d = Str [])
     ∧ (lacks hit "startLine" → startLine d = Num 0)
     ∧ (lacks hit "endLine" → endLine d = Num 0)
     ∧ (lacks hit "fileExtension" → fileExtension d = Str [])
     ∧ (lacks hit "metadata" → metadata d = Obj []))
  ∧ (∀ queryVector options,
       ∃ args,
         match (Qdrant.perform c (Qdrant.search collectionName args) (backend w)).2 with
         | inr hits =>
             (search this collectionName queryVector options w).2
               = inr (to_result queryVector <$> hits)
         | inl e => (search this collectionName queryVector options w).2 = inl e
         end)
  ∧ (∀ searchRequests options,
       is_Some (dense_vector searchRequests) →
       ∃ args,
         match (Qdrant.perform c (Qdrant.search collectionName args) (backend w)).2 with
         | inr hits =>
             (hybridSearch this collectionName searchRequests options w).2
               = inr (to_result [] <$> hits)
         | inl e => (hybridSearch this collectionName searchRequests options w).2 = inl e
         end).
Proof.
  intros H. split_and!.
  - intros vector hit d. subst d. unfold to_result, or_else. cbn [document content
      relativePath startLine endLine fileExtension metadata].
    repeat split; intros Hl; apply get_lacking in Hl; rewrite Hl; reflexivity.
  - intros queryVector options.
    exists {| Qdrant.search_vector := Qdrant.Bare queryVector;
              Qdrant.search_limit := num_or (options ≫= topK) 10;
              Qdrant.score_threshold := Some (num_or (options ≫= threshold) 0);
              Qdrant.search_with_payload := true;
              Qdrant.search_with_vector := false |}.
    rewrite (search_run _ _ _ _ _ _ H). cbn [snd].
    by destruct (Qdrant.perform c _ (backend w)).2.
  - intros searchRequests options [v Hv].
    exists {| Qdrant.search_vector := Qdrant.NamedQuery (str "dense") v;
              Qdrant.search_limit :=
                num_or (options ≫= limit) (num_or (head searchRequests ≫= req_limit) 10);
              Qdrant.score_threshold := None;
              Qdrant.search_with_payload := true;
              Qdrant.search_with_vector := false |}.
    rewrite (hybridSearch_run _ _ _ _ _ _ _ H Hv). cbn [snd].
    by destruct (Qdrant.perform c _ (backend w)).2.
Qed.

(** C8.  Every result of [search] carries the caller's query vector as its
    document's vector, and every result of [hybridSearch] carries the empty
    sequence. *)
Theorem result_vectors this collectionName w :
  (∀ queryVector options results,
     (search this collectionName queryVector options w).2 = inr results →
     Forall (λ r, vector (document r) = queryVector) results)
  ∧ (∀ searchRequests options results,
       (hybridSearch this collectionName searchRequests options w).2 = inr results →
       Forall (λ r, vector (document r) = []) results)
  ∧ (∀ queryVector options,
       sent_without_vector w (search this collectionName queryVector options w).1)
  ∧ (∀ searchRequests options,
       sent_without_vector w (hybridSearch this collectionName searchRequests options w).1).
Proof.
  assert (∀ v (hits : list Qdrant.ScoredPoint),
            Forall (λ r, vector (document r) = v) (to_result v <$> hits)) as Hv.
  { intros v hits. rewrite Forall_fmap. by apply Forall_true. }
  assert (∀ {A} (k : Qdrant.call (list Qdrant.ScoredPoint))
            (f : list Qdrant.ScoredPoint → A),
            requests_vector (Qdrant.Issued k) = false →
            sent_without_vector w
              ((x ← invoke (client this) k; mret (f x)) w).1) as Hsent.
  { intros A k f Hk. destruct (client this) as [c|]; [|by left].
    rewrite bind_invoke. right. exists (Qdrant.Issued k). split; [|done].
    cbv zeta. by destruct (Qdrant.perform c k (backend w)).2. }
  assert (∀ {A} (body : Async.t B A),
            sent_without_vector w (body w).1 →
            sent_without_vector w ((ensureInitialized this;; body) w).1) as Hgate.
  { intros A body Hbody. unfold mbind, async_bind, bind, ensureInitialized.
    destruct (initializationPromise this); [|by left].
    destruct (client this); [done | by left]. }
  split_and!.
  - intros queryVector options results. unfold search, mbind, async_bind, bind.
    destruct (ensureInitialized this w) as [w1 [e|[]]]; [done|].
    destruct (invoke (client this) _ w1) as [w2 [e|hits]]; [done|].
    intros [= <-]. apply Hv.
  - intros searchRequests options results. unfold hybridSearch, mbind, async_bind, bind.
    destruct (ensureInitialized this w) as [w1 [e|[]]]; [done|].
    destruct (find is_dense searchRequests) as [req|]; [|done].
    destruct (data req); try done.
    destruct (invoke (client this) _ w1) as [w2 [e|hits]]; [done|].
    intros [= <-]. apply Hv.
  - intros queryVector options. apply Hgate, Hsent. done.
  - intros searchRequests options. apply Hgate.
    destruct (find is_dense searchRequests) as [req|]; [|by left].
    destruct (data req); try by left. apply Hsent. done.
Qed.

End Decoding.

(** The theorem at a hit stored under an older payload shape, without line
    numbers: both decode to 0. *)
Lemma decode_defaults_witness :
  startLine (document (to_result [] Sample.old_hit)) = Num 0
  ∧ endLine (document (to_result [] Sample.old_hit)) = Num 0.
Proof.
  destruct (decode_defaults Sample.db Memory.client Memory.code Sample.empty)
    as (Hd & _); [split; reflexivity|].
  destruct (Hd [] Sample.old_hit) as (_ & _ & Hs & He & _).
  split; [apply Hs | apply He]; reflexivity.
Defined.

(** The theorem on the memory backend, three documents stored: the three
    results of a search carry the query vector. *)
Lemma result_vectors_witness :
  ∃ results,
    (search Sample.db Memory.code [0%float; 1%float] None Sample.seeded).2 = inr results
    ∧ length results = 3
    ∧ Forall (λ r, vector (document r) = [0%float; 1%float]) results.
Proof.
  eexists. split_and!; [reflexivity | reflexivity |].
  apply (proj1 (result_vectors Sample.db Memory.code Sample.seeded)
           [0%float; 1%float] None).
  reflexivity.
Defined.

Section Hybrid.
Context {B : Type}.
Implicit Types (this : QdrantVectorDatabase B) (c : Qdrant.client B) (w : world B).

Abbreviation other_field := (λ req : HybridSearchRequest, anns_field req ≠ str "vector").

Lemma find_dense_None searchRequests :
  find is_dense searchRequests = None ↔ Forall other_field searchRequests.
Proof.
  induction searchRequests as [|req rs IH]; simpl.
  - split; [constructor | done].
  - unfold is_dense at 1. case_bool_decide as Hf.
    + split; [done|]. intros Hall. apply Forall_inv in Hall. done.
    + rewrite IH. split; [by constructor | apply Forall_inv_tail].
Qed.

Lemma find_dense_first pre req post :
  Forall other_field pre → anns_field req = str "vector" →
  find is_dense (pre ++ req :: post) = Some req.
Proof.
  intros Hpre Hreq. induction Hpre as [|r pre Hr _ IH]; simpl.
  - unfold is_dense. by rewrite bool_decide_eq_true_2.
  - unfold is_dense at 1. by rewrite bool_decide_eq_false_2.
Qed.

Lemma hybridSearch_rejected this c collectionName searchRequests options w :
  ready this c → dense_vector searchRequests = None →
  hybridSearch this collectionName searchRequests options w = (w, inl InvalidRequest).
Proof. intros H Hv. by rewrite (hybridSearch_dense _ _ _ _ _ _ H), Hv. Qed.

(** C2, as amended.  [hybridSearch] fails with the InvalidRequest error and
    leaves the world unchanged, nothing having been sent to the backend,
    when no request of the list is on the dense field (the field named
    vector), and also when the first request on that field carries data
    that is not an array, whatever follows it.  When the first request on
    the dense field carries an array, one search is performed, against the
    vector named dense with that array, and the results are its hits,
    decoded, in its order (or its error). *)
Theorem hybridSearch_requires_dense this c collectionName searchRequests options w :
  ready this c →
  (Forall other_field searchRequests →
     hybridSearch this collectionName searchRequests options w = (w, inl InvalidRequest))
  ∧ (∀ pre req post,
       searchRequests = pre ++ req :: post →
       Forall other_field pre → anns_field req = str "vector" →
       (∀ v, data req ≠ Arr v) →
       hybridSearch this collectionName searchRequests options w
         = (w, inl InvalidRequest))
  ∧ (∀ pre req post v,
       searchRequests = pre ++ req :: post →
       Forall other_field pre → anns_field req = str "vector" →
       data req = Arr v →
       let k :=
         Qdrant.search collectionName
           {| Qdrant.search_vector := Qdrant.NamedQuery (str "dense") v;
              Qdrant.search_limit :=
                num_or (options ≫= limit) (num_or (head searchRequests ≫= req_limit) 10);
              Qdrant.score_threshold := None;
              Qdrant.search_with_payload := true;
              Qdrant.search_with_vector := false |} in
       let r := Qdrant.perform c k (backend w) in
       (hybridSearch this collectionName searchRequests options w).1
         = {| backend := r.1; trace := trace w ++ [Qdrant.Issued k] |}
       ∧ match r.2 with
         | inr hits =>
             (hybridSearch this collectionName searchRequests options w).2
               = inr (to_result [] <$> hits)
         | inl e => (hybridSearch this collectionName searchRequests options w).2 = inl e
         end).
Proof.
  intros H. split_and!.
  - intros Hall%find_dense_None. apply (hybridSearch_rejected _ _ _ _ _ _ H).
    unfold dense_vector. by rewrite Hall.
  - intros pre req post -> Hpre Hreq Hno.
    apply (hybridSearch_rejected _ _ _ _ _ _ H).
    unfold dense_vector. rewrite (find_dense_first pre req post Hpre Hreq).
    destruct (data req) as [| | | | |v|] eqn:E; try done. by destruct (Hno v).
  - intros pre req post v -> Hpre Hreq Hv k r. subst k r.
    assert (dense_vector (pre ++ req :: post) = Some v) as Hd.
    { unfold dense_vector. by rewrite (find_dense_first pre req post Hpre Hreq), Hv. }
    rewrite (hybridSearch_run _ _ _ _ _ _ _ H Hd). cbn [fst snd]. split; [done|].
    by destruct (Qdrant.perform c _ (backend w)).2.
Qed.

(** C9.  The dense request is the first request whose anns_field is the
    string vector; requests on any other field, before or after it, are
    ignored.  When its data is an array, the search goes to the backend
    against the vector named dense with that array.  When its data is not
    an array, the call fails with the same error and the same untouched
    world as a list with no request on that field, whatever follows. *)
Theorem hybridSearch_dense_selection this c collectionName pre req post options w :
  ready this c →
  Forall other_field pre → anns_field req = str "vector" →
  (∀ v, data req = Arr v →
     trace (hybridSearch this collectionName (pre ++ req :: post) options w).1
       = trace w ++
         [ Qdrant.Issued
             (Qdrant.search collectionName
                {| Qdrant.search_vector := Qdrant.NamedQuery (str "dense") v;
                   Qdrant.search_limit :=
                     num_or (options ≫= limit)
                       (num_or (head (pre ++ req :: post) ≫= req_limit) 10);
                   Qdrant.score_threshold := None;
                   Qdrant.search_with_payload := true;
                   Qdrant.search_with_vector := false |}) ])
  ∧ ((∀ v, data req ≠ Arr v) →
       hybridSearch this collectionName (pre ++ req :: post) options w
         = (w, inl InvalidRequest))
  ∧ (∀ others, Forall other_field others →
       hybridSearch this collectionName others options w = (w, inl InvalidRequest)).
Proof.
  intros H Hpre Hreq.
  pose proof (find_dense_first pre req post Hpre Hreq) as Hfind.
  split_and!.
  - intros v Hv.
    assert (dense_vector (pre ++ req :: post) = Some v) as Hd.
    { unfold dense_vector. by rewrite Hfind, Hv. }
    by rewrite (hybridSearch_run _ _ _ _ _ _ _ H Hd).
  - intros Hno. apply (hybridSearch_rejected _ _ _ _ _ _ H).
    unfold dense_vector. rewrite Hfind.
    destruct (data req) as [| | | | |v|] eqn:E; try done. by destruct (Hno v).
  - intros others Hall%find_dense_None. apply (hybridSearch_rejected _ _ _ _ _ _ H).
    unfold dense_vector. by rewrite Hall.
Qed.

End Hybrid.

(** The theorem on the memory backend: a list holding only a sparse
    request is refused and nothing reaches the backend, and a list whose
    first request on the dense field, after a sparse one, carries an array
    sends the search against the vector named dense. *)
Lemma hybridSearch_requires_dense_witness :
  hybridSearch Sample.db Memory.code [Sample.sparse_request] None Sample.seeded
    = (Sample.seeded, inl InvalidRequest)
  ∧ trace (hybridSearch Sample.db Memory.code
             ([Sample.sparse_request] ++ Sample.dense_request :: []) None
             Sample.seeded).1
    = [ Qdrant.Issued
          (Qdrant.search Memory.code
             {| Qdrant.search_vector := Qdrant.NamedQuery (str "dense") [Num 1; Num 0];
                Qdrant.search_limit := 5%float;
                Qdrant.score_threshold := None;
                Qdrant.search_with_payload := true;
                Qdrant.search_with_vector := false |}) ].
Proof.
  split.
  - destruct (hybridSearch_requires_dense Sample.db Memory.client Memory.code
                [Sample.sparse_request] None Sample.seeded) as (Hnone & _).
    + split; reflexivity.
    + apply Hnone. repeat constructor. discriminate.
  - destruct (hybridSearch_requires_dense Sample.db Memory.client Memory.code
                ([Sample.sparse_request] ++ Sample.dense_request :: []) None
                Sample.seeded) as (_ & _ & Hdense).
    + split; reflexivity.
    + destruct (Hdense [Sample.sparse_request] Sample.dense_request [] [Num 1; Num 0]
                  eq_refl) as [Hw _].
      * repeat constructor. discriminate.
      * reflexivity.
      * reflexivity.
      * rewrite Hw. reflexivity.
Defined.

(** C2, as stated, fails when the request on the dense field carries text:
    a dense request is present, yet the call is refused with the world
    unchanged, so no search was sent.  It is refused as well when a second
    request on the dense field, carrying an array, follows the first. *)
Lemma hybridSearch_counterexample :
  Stated.dense_present [Sample.text_request]
  ∧ hybridSearch Sample.db Memory.code [Sample.text_request] None Sample.seeded
    = (Sample.seeded, inl InvalidRequest)
  ∧ Stated.dense_present [Sample.text_request; Sample.dense_request]
  ∧ hybridSearch Sample.db Memory.code [Sample.text_request; Sample.dense_request]
      None Sample.seeded
    = (Sample.seeded, inl InvalidRequest).
Proof.
  split_and!; [by left | reflexivity | by left | reflexivity].
Qed.

(** The theorem on the memory backend: after a request on the field dense,
    a request on the field vector that carries text is the dense request,
    and the call is refused although a request with an array follows. *)
Lemma hybridSearch_dense_selection_witness :
  hybridSearch Sample.db Memory.code
    ([Sample.named_dense_request] ++ Sample.text_request :: [Sample.dense_request])
    None Sample.seeded
    = (Sample.seeded, inl InvalidRequest).
Proof.
  destruct (hybridSearch_dense_selection Sample.db Memory.client Memory.code
              [Sample.named_dense_request] Sample.text_request [Sample.dense_request]
              None Sample.seeded) as (_ & Hrefused & _).
  - split; reflexivity.
  - repeat constructor. discriminate.
  - reflexivity.
  - apply Hrefused. intros v. discriminate.
Defined.

(** A request list whose only request is on the field named dense is
    refused: that name is the backend's, not the one looked for. *)
Example hybridSearch_field_named_dense :
  hybridSearch Sample.db Memory.code [Sample.named_dense_request] None Sample.seeded
    = (Sample.seeded, inl InvalidRequest).
Proof. reflexivity. Qed.

(** And with the request on the field vector, the search is sent against
    the vector named dense. *)
Example hybridSearch_field_named_vector :
  trace (hybridSearch Sample.db Memory.code [Sample.dense_request] None Sample.seeded).1
    = [ Qdrant.Issued
          (Qdrant.search Memory.code
             {| Qdrant.search_vector := Qdrant.NamedQuery (str "dense") [Num 1; Num 0];
                Qdrant.search_limit := 5%float;
                Qdrant.score_threshold := None;
                Qdrant.search_with_payload := true;
                Qdrant.search_with_vector := false |}) ].
Proof. reflexivity. Qed.

Section Querying.
Context {B : Type}.
Implicit Types (this : QdrantVectorDatabase B) (c : Qdrant.client B) (w : world B).

Lemma query_run this c collectionName filter outputFields limit w :
  ready this c →
  let k :=
    Qdrant.scroll collectionName
      {| Qdrant.scroll_filter := qdrantFilter filter;
         Qdrant.scroll_limit := num_or limit 100;
         Qdrant.scroll_with_payload := true;
         Qdrant.scroll_with_vector := false |} in
  query this collectionName filter outputFields limit w =
    ({| backend := (Qdrant.perform c k (backend w)).1;
        trace := trace w ++ [Qdrant.Issued k] |},
     match (Qdrant.perform c k (backend w)).2 with
     | inr scrollResult => inr (to_row outputFields <$> Qdrant.points scrollResult)
     | inl e => inl e
     end).
Proof.
  intros H k. pose proof H as [_ Hc]. unfold query.
  rewrite (gated_ready _ _ _ _ H), Hc. unfold try_catch.
  rewrite bind_invoke. fold k. cbv zeta.
  by destruct (Qdrant.perform c k (backend w)).2.
Qed.

Lemma qdrantFilter_leftmost filter lit :
  leftmost_match filter lit → qdrantFilter filter = Some (path_is lit).
Proof.
  intros H%FilterFacts.regex_match_Some.
  by rewrite FilterFacts.qdrantFilter_regex, H.
Qed.

Lemma qdrantFilter_no_match filter : no_match filter → qdrantFilter filter = None.
Proof.
  intros H%FilterFacts.regex_match_None.
  by rewrite FilterFacts.qdrantFilter_regex, H.
Qed.

(** A clause on relativePath with a non-empty literal free of quotes is
    matched from its first unit. *)
Lemma relativePath_clause lit :
  lit ≠ [] → dquote ∉ lit →
  leftmost_match (equality_clause (str "relativePath") lit) lit.
Proof.
  intros Hne Hq. exists [], (equality_clause (str "relativePath") lit).
  split_and!; [done | | simpl; lia].
  exists [32%N], [32%N], []. split_and!; [|repeat constructor..|done|done].
  unfold equality_clause. by rewrite app_nil_r.
Qed.

(** C1, as amended.  [query] recognises one field, relativePath.  When the
    filter contains a match of the pattern (relativePath, optional white
    space, two equal signs, optional white space, a non-empty literal
    between double quotes), the scroll carries the predicate that requires
    the payload field relativePath to be the literal of the leftmost match;
    in particular a clause on relativePath alone yields its literal.  Every
    other filter (a clause on another field, an empty literal, the empty or
    blank filter) yields no predicate and the same scroll and result as the
    empty filter.  No filter is refused: the call fails only with the error
    of the scroll. *)
Theorem query_filter this c collectionName filter outputFields limit w :
  ready this c →
  ∃ flt,
    let k :=
      Qdrant.scroll collectionName
        {| Qdrant.scroll_filter := flt;
           Qdrant.scroll_limit := num_or limit 100;
           Qdrant.scroll_with_payload := true;
           Qdrant.scroll_with_vector := false |} in
    let r := Qdrant.perform c k (backend w) in
    query this collectionName filter outputFields limit w
      = ({| backend := r.1; trace := trace w ++ [Qdrant.Issued k] |},
         match r.2 with
         | inr scrollResult => inr (to_row outputFields <$> Qdrant.points scrollResult)
         | inl e => inl e
         end)
    ∧ (∀ lit, leftmost_match filter lit →
         flt = Some (path_is lit)
         ∧ ∀ payload : dict,
             satisfies payload (path_is lit)
             ↔ payload !! str "relativePath" = Some (Str lit))
    ∧ (∀ lit, filter = equality_clause (str "relativePath") lit →
         lit ≠ [] → dquote ∉ lit → flt = Some (path_is lit))
    ∧ (no_match filter →
         flt = None
         ∧ query this collectionName filter outputFields limit w
           = query this collectionName [] outputFields limit w)
    ∧ ((∃ lit, leftmost_match filter lit) ∨ no_match filter).
Proof.
  intros H. exists (qdrantFilter filter). split_and!.
  - apply (query_run _ _ _ _ _ _ _ H).
  - intros lit Hm. split; [by apply qdrantFilter_leftmost|].
    intros payload. unfold satisfies, path_is. simpl.
    rewrite Forall_singleton. done.
  - intros lit -> Hne Hq. by apply qdrantFilter_leftmost, relativePath_clause.
  - intros Hno. split; [by apply qdrantFilter_no_match|].
    rewrite !(query_run _ _ _ _ _ _ _ H). cbv zeta.
    by rewrite (qdrantFilter_no_match _ Hno).
  - apply FilterFacts.match_or_not.
Qed.

End Querying.

(** The theorem on the memory backend: the clause on relativePath with the
    literal src/a.ts goes out as the predicate on that path. *)
Lemma query_filter_witness :
  trace (query Sample.db Memory.code
           (equality_clause (str "relativePath") (str "src/a.ts"))
           [str "content"] None Sample.seeded).1
    = [ Qdrant.Issued
          (Qdrant.scroll Memory.code
             {| Qdrant.scroll_filter := Some (path_is (str "src/a.ts"));
                Qdrant.scroll_limit := 100%float;
                Qdrant.scroll_with_payload := true;
                Qdrant.scroll_with_vector := false |}) ].
Proof.
  destruct (query_filter Sample.db Memory.client Memory.code
              (equality_clause (str "relativePath") (str "src/a.ts"))
              [str "content"] None Sample.seeded)
    as (flt & Hrun & _ & Hclause & _).
  { split; reflexivity. }
  rewrite Hrun, (Hclause (str "src/a.ts") eq_refl); [reflexivity | discriminate |].
  intros Hin. repeat (apply elem_of_cons in Hin as [Hin|Hin]; [discriminate Hin|]).
  by apply elem_of_nil in Hin.
Defined.

(** C1, as stated, fails in both directions.  A clause of the stated shape
    on another field, fileExtension, yields no predicate: the scroll is
    unfiltered and the Python file comes back with the others.  And a
    filter that is not a single clause, a clause on relativePath followed
    by a second one, yields the predicate of its first clause instead of
    none. *)
Lemma query_filter_counterexample :
  let clause := equality_clause (str "fileExtension") (str ".ts") in
  let two_clauses :=
    equality_clause (str "relativePath") (str "src/a.ts")
      ++ str " && " ++ equality_clause (str "fileExtension") (str ".py") in
  qdrantFilter clause ≠ Some (field_is (str "fileExtension") (str ".ts"))
  ∧ qdrantFilter clause = None
  ∧ (∃ rows,
       (query Sample.db Memory.code clause [str "fileExtension"] None Sample.seeded).2
         = inr rows
       ∧ (query Sample.db Memory.code [] [str "fileExtension"] None Sample.seeded).2
         = inr rows
       ∧ length rows = 3)
  ∧ two_clauses ≠ equality_clause (str "relativePath") (str "src/a.ts")
  ∧ qdrantFilter two_clauses = Some (path_is (str "src/a.ts")).
Proof.
  split_and!.
  - discriminate.
  - reflexivity.
  - eexists. split_and!; reflexivity.
  - discriminate.
  - reflexivity.
Qed.

(** On the memory backend the clause on relativePath selects the one
    document stored under that path, and its row holds the id and the
    requested field. *)
Example query_by_path :
  (query Sample.db Memory.code
     (equality_clause (str "relativePath") (str "src/a.ts"))
     [str "relativePath"; str "language"] None Sample.seeded).2
    = inr [ {[ str "id" := Data (Str (str "a"));
               str "relativePath" := Data (Str (str "src/a.ts")) ]} ].
Proof. vm_compute. reflexivity. Qed.

End AdapterFacts.

(** ** Beyond the numbered claims: the codec, the rows, the configuration
    and the shape of every method *)

Module Beyond.
Import Js JsFacts Filter Adapter Codec.

Lemma payload_of_lookup (doc : VectorDocument) :
  payload_of doc !! str "content" = Some (content doc)
  ∧ payload_of doc !! str "relativePath" = Some (relativePath doc)
  ∧ payload_of doc !! str "startLine" = Some (startLine doc)
  ∧ payload_of doc !! str "endLine" = Some (endLine doc)
  ∧ payload_of doc !! str "fileExtension" = Some (fileExtension doc)
  ∧ payload_of doc !! str "metadata" = Some (metadata doc).
Proof. split_and!; vm_compute; reflexivity. Qed.

Lemma payload_of_dom (doc : VectorDocument) :
  dom (payload_of doc) = list_to_set payload_keys.
Proof. vm_compute. reflexivity. Qed.

Lemma get_payload_of (doc : VectorDocument) :
  get (payload_of doc) (str "content") = content doc
  ∧ get (payload_of doc) (str "relativePath") = relativePath doc
  ∧ get (payload_of doc) (str "startLine") = startLine doc
  ∧ get (payload_of doc) (str "endLine") = endLine doc
  ∧ get (payload_of doc) (str "fileExtension") = fileExtension doc
  ∧ get (payload_of doc) (str "metadata") = metadata doc.
Proof.
  unfold get. destruct (payload_of_lookup doc) as (-> & -> & -> & -> & -> & ->). done.
Qed.

Lemma or_else_str s : or_else (Str s) (Str []) = Str s.
Proof. by destruct s. Qed.

Lemma or_else_kept v : kept_num v → or_else v (Num 0) = v.
Proof.
  intros (x & -> & [Hx| ->]); unfold or_else; simpl; [by rewrite Hx | done].
Qed.

Section Writes.
Context {B : Type}.
Implicit Types (this : QdrantVectorDatabase B) (c : Qdrant.client B) (w : world B).

(** X1.  [insert] and [insertHybrid] send one upsert, acknowledged, with one
    point per document in the order given; the two differ only in where
    the vector goes (bare, or under the name dense).  The payload of a
    point has exactly six keys, content, relativePath, startLine, endLine,
    fileExtension and metadata, with the document's values; the id and the
    vector are not copied into it. *)
Theorem insert_writes this c collectionName documents w :
  ready this c →
  trace (insert this collectionName documents w).1
    = trace w ++
      [ Qdrant.Issued
          (Qdrant.upsert collectionName
             {| Qdrant.upsert_wait := true;
                Qdrant.upsert_points := encode <$> documents |}) ]
  ∧ trace (insertHybrid this collectionName documents w).1
    = trace w ++
      [ Qdrant.Issued
          (Qdrant.upsert collectionName
             {| Qdrant.upsert_wait := true;
                Qdrant.upsert_points := encode_hybrid <$> documents |}) ]
  ∧ ∀ doc,
      Qdrant.point_payload (encode doc) = Qdrant.point_payload (encode_hybrid doc)
      ∧ dom (Qdrant.point_payload (encode doc)) = list_to_set payload_keys
      ∧ Qdrant.point_payload (encode doc) !! str "content" = Some (content doc)
      ∧ Qdrant.point_payload (encode doc) !! str "relativePath" = Some (relativePath doc)
      ∧ Qdrant.point_payload (encode doc) !! str "startLine" = Some (startLine doc)
      ∧ Qdrant.point_payload (encode doc) !! str "endLine" = Some (endLine doc)
      ∧ Qdrant.point_payload (encode doc) !! str "fileExtension" = Some (fileExtension doc)
      ∧ Qdrant.point_payload (encode doc) !! str "metadata" = Some (metadata doc).
Proof.
  intros H. pose proof H as [_ Hc]. split_and!.
  - unfold insert. rewrite (AdapterFacts.gated_ready _ _ _ _ H), Hc.
    by rewrite AdapterFacts.invoke_Some.
  - unfold insertHybrid. rewrite (AdapterFacts.gated_ready _ _ _ _ H), Hc.
    by rewrite AdapterFacts.invoke_Some.
  - intros doc. cbn [encode encode_hybrid Qdrant.point_payload].
    split; [done|]. split; [apply payload_of_dom | apply payload_of_lookup].
Qed.

End Writes.

(** The theorem on the memory backend: the three sample documents go out as
    three points. *)
Lemma insert_writes_witness :
  trace (insert Sample.db Memory.code Sample.docs Sample.empty).1
    = [ Qdrant.Issued
          (Qdrant.upsert Memory.code
             {| Qdrant.upsert_wait := true;
                Qdrant.upsert_points := encode <$> Sample.docs |}) ].
Proof.
  apply (insert_writes Sample.db Memory.client Memory.code Sample.docs Sample.empty).
  split; reflexivity.
Defined.

(** X2.  Decoding what was encoded.  A stored point read back by a search
    gives the document's id and the score verbatim, the vector the search
    supplies, and each payload field passed through [|| default].  For a
    document whose fields have their declared types (no NaN and no negative
    zero as a line number) that is the document itself, with the vector
    replaced; the same holds for a point written by [insertHybrid]. *)
Theorem decode_encode (doc : VectorDocument) (v : list number) (s : number) :
  let r := to_result v (stored_hit s (encode doc)) in
  score r = s
  ∧ id (document r) = id doc
  ∧ vector (document r) = v
  ∧ content (document r) = or_else (content doc) (Str [])
  ∧ relativePath (document r) = or_else (relativePath doc) (Str [])
  ∧ startLine (document r) = or_else (startLine doc) (Num 0)
  ∧ endLine (document r) = or_else (endLine doc) (Num 0)
  ∧ fileExtension (document r) = or_else (fileExtension doc) (Str [])
  ∧ metadata (document r) = or_else (metadata doc) (Obj [])
  ∧ to_result v (stored_hit s (encode_hybrid doc)) = r
  ∧ (well_typed doc → r = {| document := with_vector v doc; score := s |}).
Proof.
  intros r. subst r. unfold to_result, stored_hit, encode, encode_hybrid.
  cbn [Qdrant.payload Qdrant.point_payload Qdrant.id Qdrant.point_id Qdrant.score
       from_option document score id vector content relativePath startLine endLine
       fileExtension metadata].
  unfold Datatypes.id.
  destruct (get_payload_of doc) as (-> & -> & -> & -> & -> & ->).
  split_and!; try done. unfold with_vector.
  intros ((s1 & ->) & (s2 & ->) & Hs%or_else_kept & He%or_else_kept & (s3 & ->) & (l & ->)).
  rewrite Hs, He, !or_else_str. done.
Qed.

(** The theorem at the first sample document. *)
Lemma decode_encode_witness :
  to_result [0%float] (stored_hit 1%float (encode (Sample.doc "a" "src/a.ts" ".ts")))
    = {| document := with_vector [0%float] (Sample.doc "a" "src/a.ts" ".ts");
         score := 1%float |}.
Proof.
  apply (decode_encode (Sample.doc "a" "src/a.ts" ".ts") [0%float] 1%float).
  unfold well_typed, kept_num.
  split_and!; try (eexists; reflexivity).
  - exists 1%float. split; [reflexivity | left; reflexivity].
  - exists 2%float. split; [reflexivity | left; reflexivity].
Defined.

Lemma or_else_cases a d : (truthy a = true ∧ or_else a d = a) ∨ or_else a d = d.
Proof. unfold or_else. destruct (truthy a); [by left | by right]. Qed.

(** X3.  Whatever payload the backend sends (absent, partial, holding null,
    false, 0 or the empty string), no content or provenance field of a
    decoded document is undefined, null or false: a falsy value is replaced
    by the field's default. *)
Theorem decoded_fields_defined (v : list number) (hit : Qdrant.ScoredPoint) :
  let d := document (to_result v hit) in
  Forall (λ x, x ≠ Undefined ∧ x ≠ Null ∧ x ≠ Bool false)
    [ content d; relativePath d; startLine d; endLine d; fileExtension d; metadata d ].
Proof.
  assert (∀ a d, truthy d = true ∨ d = Str [] ∨ d = Num 0 →
            or_else a d ≠ Undefined ∧ or_else a d ≠ Null ∧ or_else a d ≠ Bool false) as H.
  { intros a d Hd. destruct (or_else_cases a d) as [[Ht ->]| ->].
    - destruct a as [| |[|]| | | |]; simpl in Ht; split_and!; congruence.
    - destruct Hd as [Hd|[->| ->]]; [|done|done].
      destruct d as [| |[|]| | | |]; simpl in Hd; split_and!; congruence. }
  intros d. subst d. unfold to_result. cbn [document content relativePath startLine
    endLine fileExtension metadata].
  repeat (constructor; [apply H; auto|]). constructor.
Qed.

Lemma assign_frame (field k : jsstring) (v : property) (row : record * bool) :
  k ≠ field → (assign field v row).1 !! k = row.1 !! k.
Proof.
  intros Hne. destruct row as [result shadowed]. unfold assign.
  destruct (bool_decide (field = str "__proto__")
            && negb (bool_decide (is_Some (result !! field))) && negb shadowed).
  - by destruct v as [[]|].
  - cbn [fst]. by rewrite lookup_insert_ne.
Qed.

Lemma assign_own (field : jsstring) (v : property) (row : record * bool) :
  field ≠ str "__proto__" → (assign field v row).1 !! field = Some v.
Proof.
  intros Hne. destruct row as [result shadowed]. unfold assign.
  rewrite (bool_decide_eq_false_2 _ Hne). cbn [andb fst]. by rewrite lookup_insert_eq.
Qed.

Lemma fold_fields (payload : dict) (outputFields : list jsstring)
    (row : record * bool) (k : jsstring) :
  k ≠ str "__proto__" →
  (foldl (add_field payload) row outputFields).1 !! k
  = if bool_decide (k ∈ outputFields ∧ has payload k = true) then Some (read payload k)
    else row.1 !! k.
Proof.
  intros Hk. revert row. induction outputFields as [|field out IH]; intros row; cbn [foldl].
  - rewrite bool_decide_eq_false_2; [done|]. intros [Hin _]. by apply elem_of_nil in Hin.
  - rewrite IH.
    destruct (decide (k ∈ out ∧ has payload k = true)) as [[Hin Hh]|Hno].
    + rewrite !bool_decide_eq_true_2; [done| |done]. split; [by right | done].
    + rewrite (bool_decide_eq_false_2 _ Hno). unfold add_field.
      destruct (decide (k = field)) as [<-|Hne].
      * destruct (has payload k) eqn:Hh.
        -- rewrite assign_own by done.
           by rewrite bool_decide_eq_true_2 by (split; [by left|done]).
        -- rewrite bool_decide_eq_false_2; [done|]. by intros [_ ?].
      * assert (¬ (k ∈ field :: out ∧ has payload k = true)) as Hno'.
        { intros [Hin Hh]. apply elem_of_cons in Hin as [?|Hin]; [done|]. by apply Hno. }
        rewrite (bool_decide_eq_false_2 _ Hno').
        destruct (has payload field); [by rewrite assign_frame|done].
Qed.

Lemma fold_unrequested (payload : dict) (outputFields : list jsstring)
    (row : record * bool) (k : jsstring) :
  k ∉ outputFields → (foldl (add_field payload) row outputFields).1 !! k = row.1 !! k.
Proof.
  revert row. induction outputFields as [|field out IH]; intros row Hk; cbn [foldl]; [done|].
  apply not_elem_of_cons in Hk as [Hne Hk]. rewrite IH by done. unfold add_field.
  destruct (has payload field); [by rewrite assign_frame|done].
Qed.

Lemma fold_prototype (payload : dict) (outputFields : list jsstring) (result : record) :
  payload !! str "__proto__" = None → result !! str "__proto__" = None →
  (foldl (add_field payload) (result, false) outputFields).1 !! str "__proto__" = None.
Proof.
  intros Hp. revert result. induction outputFields as [|field out IH]; intros result Hr;
    cbn [foldl]; [done|].
  unfold add_field at 2. destruct (has payload field); [|by apply IH].
  unfold assign. destruct (decide (field = str "__proto__")) as [->|Hne].
  - rewrite bool_decide_eq_true_2 by done.
    rewrite (bool_decide_eq_false_2 (is_Some _)) by (rewrite Hr; by intros [??]).
    cbn [andb negb]. unfold read. rewrite Hp.
    change (inherited (str "__proto__")) with true. cbv iota. by apply IH.
  - rewrite (bool_decide_eq_false_2 _ Hne). cbn [andb].
    apply IH. by rewrite lookup_insert_ne.
Qed.

(** X4.  A row of [query], by its own properties.  Without a payload the row
    is the id alone.  With one, a requested field is in the row exactly
    when it is in the payload in the sense of the in operator: an own
    property gives the payload's value, and a name that the payload only
    inherits from its prototype (toString, constructor and the like) puts
    that built-in into the row; a requested field that is neither, and a
    field that was not requested, are absent.  The row always has an id,
    the point's id unless id is a requested field that the payload has,
    whose value then takes its place.  The name __proto__ is not dealt
    with beyond this: it is never an own property of the row when it was
    not requested or the payload has no own property of that name. *)
Theorem row_fields (outputFields : list jsstring) (point : Qdrant.Record_) :
  let row := to_row outputFields point in
  match Qdrant.record_payload point with
  | None => row = {[ str "id" := Data (Qdrant.record_id point) ]}
  | Some payload =>
      (∀ k v, k ≠ str "__proto__" → k ∈ outputFields → payload !! k = Some v →
         row !! k = Some (Data v))
      ∧ (∀ k, k ≠ str "__proto__" → k ∈ outputFields → payload !! k = None →
           k ∈ object_prototype → row !! k = Some (Builtin k))
      ∧ (∀ k, k ≠ str "__proto__" → k ≠ str "id" →
           k ∉ outputFields ∨ (payload !! k = None ∧ k ∉ object_prototype) →
           row !! k = None)
      ∧ (str "id" ∉ outputFields ∨ payload !! str "id" = None →
           row !! str "id" = Some (Data (Qdrant.record_id point)))
      ∧ is_Some (row !! str "id")
      ∧ (str "__proto__" ∉ outputFields ∨ payload !! str "__proto__" = None →
           row !! str "__proto__" = None)
  end.
Proof.
  intros row. subst row. unfold to_row.
  destruct (Qdrant.record_payload point) as [payload|]; [|done]. cbv zeta.
  assert (∀ k, inherited k = true ↔ k ∈ object_prototype) as Hinh.
  { intros k. unfold inherited. rewrite existsb_exists. split.
    - intros (n & Hn%list_elem_of_In & ->%bool_decide_eq_true). done.
    - intros Hk. exists k. split; [by apply list_elem_of_In | by apply bool_decide_eq_true]. }
  assert (str "id" ≠ str "__proto__") as Hid by discriminate.
  split_and!.
  - intros k v Hk Hin Hv. rewrite fold_fields by done.
    rewrite bool_decide_eq_true_2.
    + unfold read. by rewrite Hv.
    + split; [done|]. unfold has. rewrite Hv.
      by rewrite bool_decide_eq_true_2 by (by eexists).
  - intros k Hk Hin Hv Hp%Hinh. rewrite fold_fields by done.
    rewrite bool_decide_eq_true_2.
    + unfold read. by rewrite Hv, Hp.
    + split; [done|]. unfold has. rewrite Hp. apply orb_true_r.
  - intros k Hk Hkid [Hout|[Hv Hp]].
    + rewrite fold_unrequested by done. cbn [fst]. by rewrite lookup_singleton_ne.
    + rewrite fold_fields by done. rewrite bool_decide_eq_false_2.
      * cbn [fst]. by rewrite lookup_singleton_ne.
      * intros [_ Hh]. unfold has in Hh. rewrite Hv in Hh.
        rewrite bool_decide_eq_false_2 in Hh by (by intros [??]).
        apply Hp, Hinh. exact Hh.
  - intros [Hout|Hv].
    + rewrite fold_unrequested by done. cbn [fst]. by rewrite lookup_singleton_eq.
    + rewrite fold_fields by done. rewrite bool_decide_eq_false_2.
      * cbn [fst]. by rewrite lookup_singleton_eq.
      * intros [_ Hh]. unfold has in Hh. rewrite Hv in Hh.
        rewrite bool_decide_eq_false_2 in Hh by (by intros [??]). discriminate Hh.
  - rewrite fold_fields by done. case_bool_decide; [by eexists|].
    cbn [fst]. rewrite lookup_singleton_eq. by eexists.
  - intros [Hout|Hv].
    + rewrite fold_unrequested by done. cbn [fst]. by rewrite lookup_singleton_ne.
    + apply fold_prototype; [done|]. by rewrite lookup_singleton_ne.
Qed.

(** The theorem at a record whose payload has an own property named id and,
    like every object, inherits toString: with both requested the row's id
    is the payload's value and the row holds the built-in toString; a
    requested field the payload lacks is absent; and without id requested
    the row's id is the point's. *)
Lemma row_fields_witness :
  let fields := [str "id"; str "content"; str "language"; str "toString"] in
  to_row fields shadowing_record !! str "id" = Some (Data (Str (str "chunk-7")))
  ∧ to_row fields shadowing_record !! str "toString" = Some (Builtin (str "toString"))
  ∧ to_row fields shadowing_record !! str "language" = None
  ∧ to_row [str "content"] shadowing_record !! str "id"
    = Some (Data (Str (str "point-1"))).
Proof.
  intros fields.
  pose proof (row_fields fields shadowing_record) as (Hown & Hinh & Hnone & _).
  pose proof (row_fields [str "content"] shadowing_record) as (_ & _ & _ & Hid & _).
  split_and!.
  - apply Hown; [discriminate | | reflexivity]. apply elem_of_cons. by left.
  - apply Hinh; [discriminate | | reflexivity |].
    + do 3 (apply elem_of_cons; right). apply elem_of_cons. by left.
    + do 8 (apply elem_of_cons; right). apply elem_of_cons. by left.
  - apply Hnone; [discriminate.. |]. right. split; [reflexivity|].
    intros Hin. repeat (apply elem_of_cons in Hin as [Hin|Hin]; [discriminate Hin|]).
    by apply elem_of_nil in Hin.
  - apply Hid. left. intros Hin.
    apply elem_of_cons in Hin as [Hin|Hin]; [discriminate Hin|].
    by apply elem_of_nil in Hin.
Defined.

Section Methods.
Context {B : Type}.
Implicit Types (this : QdrantVectorDatabase B) (c : Qdrant.client B) (w : world B).

Ltac open_method :=
  unfold createCollection, createHybridCollection, dropCollection, hasCollection,
    listCollections, insert, insertHybrid, search, delete, query.

(** Every method of a ready adapter, on arguments it accepts, is one backend
    call followed by a mapping of its outcome. *)
Lemma method_shape this c {R} (op : operation R) w :
  ready this c → accepted op →
  ∃ R' (k : Qdrant.call R') (f : R' → R) (g : error → R),
    call_method this op w
    = ({| backend := (Qdrant.perform c k (backend w)).1;
          trace := trace w ++ [Qdrant.Issued k] |},
       match (Qdrant.perform c k (backend w)).2 with
       | inr x => inr (f x)
       | inl e => if swallowed op e then inr (g e) else inl e
       end).
Proof.
  intros H Hacc. pose proof H as [_ Hc].
  destruct op; simpl in Hacc; cbn [call_method swallowed].
  9: { destruct Hacc as [v Hv]. rewrite (AdapterFacts.hybridSearch_run _ _ _ _ _ _ _ H Hv).
       cbv zeta. eexists _, _, (fmap (to_result [])), (λ _, []). reflexivity. }
  8: { rewrite (AdapterFacts.search_run _ _ _ _ _ _ H).
       cbv zeta. eexists _, _, (fmap (to_result queryVector)), (λ _, []). reflexivity. }
  9: { rewrite (AdapterFacts.query_run _ _ _ _ _ _ _ H).
       cbv zeta. eexists _, _, (λ r, to_row outputFields <$> Qdrant.points r), (λ _, []).
       reflexivity. }
  4: { unfold hasCollection. rewrite (AdapterFacts.gated_ready _ _ _ _ H), Hc.
       unfold try_catch. rewrite AdapterFacts.bind_invoke. cbv zeta.
       exists unit, (Qdrant.getCollection collectionName), (λ _, true), (λ _, false).
       destruct (Qdrant.perform c _ (backend w)).2 as [e|[]]; [|reflexivity].
       by destruct (is_not_found e). }
  4: { unfold listCollections. rewrite (AdapterFacts.gated_ready _ _ _ _ H), Hc.
       rewrite AdapterFacts.bind_invoke. cbv zeta.
       exists _, Qdrant.getCollections, (λ r, Qdrant.name <$> Qdrant.collections r), (λ _, []).
       by destruct (Qdrant.perform c _ (backend w)).2. }
  all: open_method; rewrite (AdapterFacts.gated_ready _ _ _ _ H), Hc;
    rewrite AdapterFacts.invoke_Some;
    match goal with
    | |- context [Qdrant.perform _ ?k _] => exists unit, k, (λ x, x), (λ _, ())
    end;
    by destruct (Qdrant.perform _ _ (backend w)).2.
Qed.

(** X5.  No method retries or fans out: in every state of the adapter and
    for every argument, a call of a public method leaves the world as it
    was (when the gate or the method's own check refuses it) or performs
    exactly one backend call through the handle. *)
Theorem at_most_one_call this {R} (op : operation R) w :
  (call_method this op w).1 = w
  ∨ ∃ c, ready this c ∧ one_call c w (call_method this op w).1.
Proof.
  destruct (initializationPromise this) as [|reason] eqn:Hp;
    [destruct (client this) as [c|] eqn:Hc|].
  - assert (ready this c) as H by done.
    assert (accepted op ∨ ∃ n rs o,
              existT R op = existT _ (HybridSearch n rs o) ∧ dense_vector rs = None)
      as [Hacc|(n & rs & o & Hop & Hnone)].
    { destruct op; try (left; exact I).
      destruct (dense_vector searchRequests) as [v|] eqn:Hv.
      - left. simpl. rewrite Hv. by eexists.
      - right. by exists collectionName, searchRequests, options. }
    + right. exists c. split; [done|].
      destruct (method_shape this c op w H Hacc) as (R' & k & f & g & ->).
      by exists R', k.
    + left. destruct op; try discriminate Hop.
      simpl. destruct (dense_vector searchRequests) as [v|] eqn:Hv.
      * exfalso. injection Hop as _ Hrs _. congruence.
      * by rewrite (AdapterFacts.hybridSearch_rejected _ _ _ _ _ _ H Hv).
  - left. destruct op; simpl; open_method; unfold hybridSearch;
      by rewrite AdapterFacts.gated_no_handle.
  - left. destruct op; simpl; open_method; unfold hybridSearch;
      by rewrite (AdapterFacts.gated_rejected _ _ _ reason).
Qed.

(** X6.  Failures of a ready adapter are the backend's.  On arguments the
    method accepts, the method fails exactly when its one backend call
    fails with an error it does not turn into a value, and it fails with
    that very error.  Only [hasCollection] turns an error into a value, so
    [hasCollection] never fails with a not-found error and every other
    method surfaces every backend error unchanged. *)
Theorem method_fails_iff this c {R} (op : operation R) w :
  ready this c → accepted op →
  ∃ R' (k : Qdrant.call R'),
    (call_method this op w).1
      = {| backend := (Qdrant.perform c k (backend w)).1;
           trace := trace w ++ [Qdrant.Issued k] |}
    ∧ ∀ e, (call_method this op w).2 = inl e
           ↔ (Qdrant.perform c k (backend w)).2 = inl e ∧ swallowed op e = false.
Proof.
  intros H Hacc.
  destruct (method_shape this c op w H Hacc) as (R' & k & f & g & ->).
  exists R', k. split; [done|]. intros e. cbn [snd].
  destruct (Qdrant.perform c k (backend w)).2 as [e'|x].
  - destruct (swallowed op e') eqn:Hs.
    + split; [done|]. intros [[= ->] He]. congruence.
    + split; [by intros [= ->] | by intros [[= ->] _]].
  - split; [done | by intros [? _]].
Qed.

End Methods.

(** The theorem on the memory backend: dropping a collection that does not
    exist fails with the backend's 404, which is not swallowed. *)
Lemma method_fails_iff_witness :
  (call_method Sample.db (DropCollection (str "docs")) Sample.empty).2
    = inl Memory.not_found.
Proof.
  destruct (method_fails_iff Sample.db Memory.client (DropCollection (str "docs"))
              Sample.empty) as (R' & k & Hw & Hfail).
  - split; reflexivity.
  - exact I.
  - reflexivity.
Defined.

Section Shapes.
Context {B : Type}.
Implicit Types (this : QdrantVectorDatabase B) (c : Qdrant.client B) (w : world B).

(** X7.  The limit of a hybrid search is the limit of the options when that
    is a number other than 0 and NaN; otherwise the limit of the first
    request of the list, whichever request is the dense one, when that is
    such a number; otherwise 10.  The limit of the dense request itself is
    read only when the dense request comes first. *)
Theorem hybridSearch_limit this c collectionName searchRequests options v w :
  ready this c → dense_vector searchRequests = Some v →
  ∃ lim,
    trace (hybridSearch this collectionName searchRequests options w).1
      = trace w ++
        [ Qdrant.Issued
            (Qdrant.search collectionName
               {| Qdrant.search_vector := Qdrant.NamedQuery (str "dense") v;
                  Qdrant.search_limit := lim;
                  Qdrant.score_threshold := None;
                  Qdrant.search_with_payload := true;
                  Qdrant.search_with_vector := false |}) ]
    ∧ (∀ l, options ≫= limit = Some l → truthy_num l = true → lim = l)
    ∧ (Stated.null_num (options ≫= limit) →
         (∀ first rest l, searchRequests = first :: rest →
            req_limit first = Some l → truthy_num l = true → lim = l)
         ∧ (∀ first rest, searchRequests = first :: rest →
              Stated.null_num (req_limit first) → lim = 10%float)).
Proof.
  intros H Hv.
  exists (num_or (options ≫= limit) (num_or (head searchRequests ≫= req_limit) 10)).
  assert (∀ x d, Stated.null_num x → num_or x d = d) as Hnull.
  { intros x d [->|(n & -> & Hz%truthy_num_false)]; [done|by apply num_or_falsy]. }
  split_and!.
  - by rewrite (AdapterFacts.hybridSearch_run _ _ _ _ _ _ _ H Hv).
  - intros l -> Hl. by apply num_or_truthy.
  - intros Ho. rewrite (Hnull _ _ Ho). split.
    + intros first rest l -> Hl Ht. simpl. rewrite Hl. by apply num_or_truthy.
    + intros first rest -> Hl. simpl. by apply Hnull.
Qed.

(** X11.  The three hybrid methods agree on one vector name, and the three
    simple methods on none: [createHybridCollection] declares exactly the
    vector that every point of [insertHybrid] fills and [hybridSearch]
    addresses, while [createCollection], [insert] and [search] use the
    single unnamed vector. *)
Theorem vector_names_agree this c collectionName dimension description
    documents queryVector searchOptions searchRequests hybridOptions v w :
  ready this c → dense_vector searchRequests = Some v →
  ∃ simple hybrid points hybrid_points args hybrid_args,
    trace (createCollection this collectionName dimension description w).1
      = trace w ++ [Qdrant.Issued (Qdrant.createCollection collectionName simple)]
    ∧ trace (createHybridCollection this collectionName dimension description w).1
      = trace w ++ [Qdrant.Issued (Qdrant.createCollection collectionName hybrid)]
    ∧ trace (insert this collectionName documents w).1
      = trace w ++ [Qdrant.Issued (Qdrant.upsert collectionName points)]
    ∧ trace (insertHybrid this collectionName documents w).1
      = trace w ++ [Qdrant.Issued (Qdrant.upsert collectionName hybrid_points)]
    ∧ trace (search this collectionName queryVector searchOptions w).1
      = trace w ++ [Qdrant.Issued (Qdrant.search collectionName args)]
    ∧ trace (hybridSearch this collectionName searchRequests hybridOptions w).1
      = trace w ++ [Qdrant.Issued (Qdrant.search collectionName hybrid_args)]
    ∧ declared_names simple = None
    ∧ Forall (λ p, filled_names (Qdrant.point_vector p) = declared_names simple)
        (Qdrant.upsert_points points)
    ∧ addressed_name (Qdrant.search_vector args) = declared_names simple
    ∧ declared_names hybrid = Some [str "dense"]
    ∧ Forall (λ p, filled_names (Qdrant.point_vector p) = declared_names hybrid)
        (Qdrant.upsert_points hybrid_points)
    ∧ addressed_name (Qdrant.search_vector hybrid_args) = declared_names hybrid.
Proof.
  intros H Hv. pose proof H as [_ Hc].
  eexists _, _, _, _, _, _. split_and!.
  - unfold createCollection. rewrite (AdapterFacts.gated_ready _ _ _ _ H), Hc.
    by rewrite AdapterFacts.invoke_Some.
  - unfold createHybridCollection. rewrite (AdapterFacts.gated_ready _ _ _ _ H), Hc.
    by rewrite AdapterFacts.invoke_Some.
  - unfold insert. rewrite (AdapterFacts.gated_ready _ _ _ _ H), Hc.
    by rewrite AdapterFacts.invoke_Some.
  - unfold insertHybrid. rewrite (AdapterFacts.gated_ready _ _ _ _ H), Hc.
    by rewrite AdapterFacts.invoke_Some.
  - by rewrite (AdapterFacts.search_run _ _ _ _ _ _ H).
  - by rewrite (AdapterFacts.hybridSearch_run _ _ _ _ _ _ _ H Hv).
  - done.
  - cbn [Qdrant.upsert_points]. rewrite Forall_fmap. by apply Forall_true.
  - done.
  - done.
  - cbn [Qdrant.upsert_points]. rewrite Forall_fmap. by apply Forall_true.
  - done.
Qed.

(** X9.  What the gate does to an instance built by the constructor is
    decided by the client constructor alone.  When it returned a handle the
    instance is ready; when it threw, every method of the instance fails
    with the thrown error and leaves the world as it was.  The error
    Qdrant client not initialized is never the gate's answer for such an
    instance, unless it is what the client constructor threw. *)
Theorem constructed_gate
    (QdrantClient : Qdrant.ClientParams → error + Qdrant.client B)
    (config : QdrantConfig) w :
  (∀ c, QdrantClient (clientConfig config) = inr c →
     ready (new QdrantClient config) c)
  ∧ (∀ e, QdrantClient (clientConfig config) = inl e →
       ∀ R (op : operation R),
         call_method (new QdrantClient config) op w = (w, inl e))
  ∧ (ensureInitialized (new QdrantClient config) w = (w, inl NotInitialized) →
       QdrantClient (clientConfig config) = inl NotInitialized).
Proof.
  split_and!.
  - intros c Hq. unfold new. by rewrite Hq.
  - intros e Hq R op.
    assert (initializationPromise (new QdrantClient config) = Rejected e) as Hp.
    { unfold new. by rewrite Hq. }
    destruct op; simpl;
      unfold createCollection, createHybridCollection, dropCollection, hasCollection,
        listCollections, insert, insertHybrid, search, hybridSearch, delete, query;
      by rewrite (AdapterFacts.gated_rejected _ _ _ e).
  - unfold new, ensureInitialized.
    destruct (QdrantClient (clientConfig config)) as [e|c]; simpl; [|done].
    by intros [= ->].
Qed.

End Shapes.

(** The theorem on the memory backend: the first request is sparse and asks
    for 7, the dense request asks for 5, and the search goes out with 7. *)
Lemma hybridSearch_limit_witness :
  trace (hybridSearch Sample.db Memory.code sparse_first None Sample.seeded).1
    = [ Qdrant.Issued
          (Qdrant.search Memory.code
             {| Qdrant.search_vector := Qdrant.NamedQuery (str "dense") [Num 1; Num 0];
                Qdrant.search_limit := 7%float;
                Qdrant.score_threshold := None;
                Qdrant.search_with_payload := true;
                Qdrant.search_with_vector := false |}) ].
Proof.
  destruct (hybridSearch_limit Sample.db Memory.client Memory.code sparse_first None
              [Num 1; Num 0] Sample.seeded) as (lim & Ht & _ & Hfirst).
  - split; reflexivity.
  - reflexivity.
  - destruct (Hfirst (or_introl eq_refl)) as [Hl _].
    rewrite Ht, (Hl _ _ 7%float eq_refl eq_refl eq_refl). reflexivity.
Defined.

(** The theorem on the memory backend, for the sample documents. *)
Lemma vector_names_agree_witness :
  ∃ hybrid_points,
    trace (insertHybrid Sample.db Memory.code Sample.docs Sample.empty).1
      = [Qdrant.Issued (Qdrant.upsert Memory.code hybrid_points)]
    ∧ Forall (λ p, filled_names (Qdrant.point_vector p) = Some [str "dense"])
        (Qdrant.upsert_points hybrid_points).
Proof.
  destruct (vector_names_agree Sample.db Memory.client Memory.code 2%float None
              Sample.docs [1%float; 0%float] None [Sample.dense_request] None
              [Num 1; Num 0] Sample.empty)
    as (simple & hybrid & points & hybrid_points & args & hybrid_args
        & _ & _ & _ & Hins & _ & _ & _ & _ & _ & Hdecl & Hfill & _).
  - split; reflexivity.
  - reflexivity.
  - exists hybrid_points. split; [exact Hins|]. by rewrite Hdecl in Hfill.
Defined.

(** The theorem for a url without protocol, which the client constructor
    refuses: a search fails with the constructor's error. *)
Lemma constructed_gate_witness :
  ∃ e, Memory.QdrantClient (clientConfig Sample.bad_url) = inl e
       ∧ call_method (new Memory.QdrantClient Sample.bad_url)
           (Search Memory.code [1%float] None) Sample.seeded
         = (Sample.seeded, inl e).
Proof.
  eexists. split; [reflexivity|].
  apply (constructed_gate Memory.QdrantClient Sample.bad_url Sample.seeded).
  reflexivity.
Defined.

Lemma num_or_truthy_default x d : truthy_num d = true → truthy_num (num_or x d) = true.
Proof.
  intros Hd. destruct x as [n|]; simpl; [|done].
  by destruct (truthy_num n) eqn:Hn.
Qed.

(** X8.  Whatever the configuration, the client is given exactly one
    target: either a non-empty url and neither host nor port, or no url
    and a non-empty host with a port that is neither 0 nor NaN.  An apiKey
    it is given is non-empty and a timeout it is given is neither 0 nor
    NaN. *)
Theorem clientConfig_target (config : QdrantConfig) :
  let p := clientConfig config in
  ((∃ u, Qdrant.url p = Some u ∧ u ≠ [] ∧ Qdrant.host p = None ∧ Qdrant.port p = None)
   ∨ (Qdrant.url p = None
      ∧ ∃ h n, Qdrant.host p = Some h ∧ h ≠ [] ∧ Qdrant.port p = Some n
               ∧ truthy_num n = true))
  ∧ (∀ k, Qdrant.apiKey p = Some k → k ≠ [])
  ∧ (∀ t, Qdrant.timeout p = Some t → truthy_num t = true).
Proof.
  unfold clientConfig. cbv zeta.
  destruct (truthy_opt (url config)) eqn:Hu;
    [|destruct (truthy_opt (host config)) eqn:Hh];
    destruct (truthy_opt (apiKey config)) eqn:Hk;
    destruct (truthy_opt_num (timeout config)) eqn:Ht;
    cbn [Qdrant.url Qdrant.host Qdrant.port Qdrant.apiKey Qdrant.timeout
         Qdrant.set_url Qdrant.set_host Qdrant.set_port Qdrant.set_apiKey
         Qdrant.set_timeout Qdrant.no_params].
  all: split_and!;
    [ | try done; intros k Hk'; apply AdapterFacts.truthy_opt_true in Hk as (k0 & ? & ?);
        congruence
      | try done; intros t Ht'; rewrite Ht' in Ht; exact Ht ].
  all: try (left; apply AdapterFacts.truthy_opt_true in Hu as (u & -> & Hne);
            by exists u).
  all: right; split; [done|].
  all: try (apply AdapterFacts.truthy_opt_true in Hh as (h & -> & Hne);
            exists h, (num_or (port config) 6333); split_and!; try done;
            by apply num_or_truthy_default).
  all: by exists (str "localhost"), 6333%float.
Qed.

(** X10.  The configuration that the usage example builds from the
    environment always reaches the client as a host and a port: the host is
    QDRANT_HOST, or localhost when that is unset or empty, and the port is
    the parsed QDRANT_PORT, or 6333 when parsing gave 0 or NaN; no url, key
    or timeout is set. *)
Theorem example_target (QDRANT_HOST : option jsstring) (parsed_port : number) :
  let p := clientConfig (example_config QDRANT_HOST parsed_port) in
  Qdrant.url p = None ∧ Qdrant.apiKey p = None ∧ Qdrant.timeout p = None
  ∧ (∀ h, QDRANT_HOST = Some h → h ≠ [] → Qdrant.host p = Some h)
  ∧ (Stated.blank QDRANT_HOST → Qdrant.host p = Some (str "localhost"))
  ∧ (truthy_num parsed_port = true → Qdrant.port p = Some parsed_port)
  ∧ (truthy_num parsed_port = false → Qdrant.port p = Some 6333%float).
Proof.
  assert (truthy_opt (host (example_config QDRANT_HOST parsed_port)) = true) as Hh.
  { unfold example_config. cbn [host truthy_opt].
    destruct QDRANT_HOST as [[|a h]|]; done. }
  unfold clientConfig. cbv zeta. rewrite Hh.
  cbn [example_config url apiKey timeout host port truthy_opt truthy_opt_num
       Qdrant.url Qdrant.host Qdrant.port Qdrant.apiKey Qdrant.timeout
       Qdrant.set_url Qdrant.set_host Qdrant.set_port Qdrant.no_params].
  split_and!; try done.
  - intros h -> Hne. by destruct h.
  - by intros [->| ->].
  - intros Hp. by rewrite num_or_truthy.
  - intros Hp. by rewrite num_or_falsy.
Qed.

(** The theorem for an environment whose QDRANT_PORT does not parse: the
    port is 6333. *)
Lemma example_target_witness :
  Qdrant.port (clientConfig (example_config (Some (str "qdrant")) nan)) = Some 6333%float
  ∧ Qdrant.host (clientConfig (example_config None nan)) = Some (str "localhost").
Proof.
  split.
  - apply (example_target (Some (str "qdrant")) nan). reflexivity.
  - apply (example_target None nan). by left.
Defined.

Lemma regex_match_skips (pre s : jsstring) :
  is_Some (regex_match s) → is_Some (regex_match (pre ++ s)).
Proof.
  intros Hs. induction pre as [|a pre IH]; [done|].
  rewrite FilterFacts.regex_match_unfold.
  destruct (match_here ((a :: pre) ++ s)); [by eexists | exact IH].
Qed.

(** X12.  The predicate of [query], when there is one, is a single condition
    on relativePath whose value is a non-empty, quote-free piece of the
    filter that stands between two double quotes; and there is no
    predicate exactly when the pattern matches nowhere in the filter, so
    the test for an empty or blank filter never changes the outcome. *)
Theorem filter_predicate (filter : jsstring) :
  (∀ f, qdrantFilter filter = Some f →
     ∃ lit pre suf,
       f = path_is lit ∧ lit ≠ [] ∧ (dquote ∉ lit)
       ∧ filter = pre ++ [dquote] ++ lit ++ [dquote] ++ suf)
  ∧ (qdrantFilter filter = None ↔ no_match filter)
  ∧ qdrantFilter filter = path_is <$> regex_match filter.
Proof.
  rewrite FilterFacts.qdrantFilter_regex. split_and!.
  - intros f Hf. destruct (regex_match filter) as [lit|] eqn:E; [|done].
    injection Hf as <-.
    apply FilterFacts.regex_match_Some in E
      as (pre & ? & -> & (ws1 & ws2 & rest & -> & _ & _ & Hne & Hq) & _).
    exists lit, (pre ++ str "relativePath" ++ ws1 ++ str "==" ++ ws2), rest.
    split_and!; [done..|]. by rewrite <- !app_assoc.
  - rewrite <- FilterFacts.regex_match_None.
    destruct (regex_match filter); split; done.
  - done.
Qed.

(** X13.  The clause is recognised with any white space, or none, around
    the two equal signs, and whatever follows the closing quote is ignored:
    such a filter yields the predicate on its literal.  Text in front of the
    clause does not prevent a predicate either: the filter still yields a
    predicate on relativePath. *)
Theorem filter_spacing (ws1 ws2 lit rest : jsstring) :
  spaces ws1 → spaces ws2 → lit ≠ [] → dquote ∉ lit →
  let clause :=
    str "relativePath" ++ ws1 ++ str "==" ++ ws2
      ++ [dquote] ++ lit ++ [dquote] ++ rest in
  qdrantFilter clause = Some (path_is lit)
  ∧ ∀ pre, ∃ lit', qdrantFilter (pre ++ clause) = Some (path_is lit').
Proof.
  intros H1 H2 Hne Hq clause.
  assert (match_here clause = Some lit) as Hm.
  { apply FilterFacts.match_here_spec. by exists ws1, ws2, rest. }
  assert (regex_match clause = Some lit) as Hr.
  { by rewrite FilterFacts.regex_match_unfold, Hm. }
  split.
  - by rewrite FilterFacts.qdrantFilter_regex, Hr.
  - intros pre. destruct (regex_match_skips pre clause) as [lit' Hl]; [by eexists|].
    exists lit'. by rewrite FilterFacts.qdrantFilter_regex, Hl.
Qed.

(** The theorem for a clause written without spaces, with a tab and a line
    break around the equal signs, and with a second clause behind it. *)
Lemma filter_spacing_witness :
  qdrantFilter (str "relativePath" ++ [] ++ str "==" ++ []
                  ++ [dquote] ++ str "src/a.ts" ++ [dquote] ++ [])
    = Some (path_is (str "src/a.ts"))
  ∧ qdrantFilter (str "relativePath" ++ [9%N] ++ str "==" ++ [10%N]
                    ++ [dquote] ++ str "src/a.ts" ++ [dquote] ++ str " and more")
    = Some (path_is (str "src/a.ts")).
Proof.
  assert (dquote ∉ str "src/a.ts") as Hq.
  { intros Hin. repeat (apply elem_of_cons in Hin as [Hin|Hin]; [discriminate Hin|]).
    by apply elem_of_nil in Hin. }
  split.
  - apply (filter_spacing [] [] (str "src/a.ts") []); [constructor..|discriminate|exact Hq].
  - apply (filter_spacing [9%N] [10%N] (str "src/a.ts") (str " and more"));
      [by repeat constructor..|discriminate|exact Hq].
Defined.

(** The theorem at the clause on src/a.ts: the value of its predicate is
    the text between the quotes. *)
Lemma filter_predicate_witness :
  ∃ lit pre suf,
    path_is (str "src/a.ts") = path_is lit ∧ lit ≠ [] ∧ (dquote ∉ lit)
    ∧ equality_clause (str "relativePath") (str "src/a.ts")
      = pre ++ [dquote] ++ lit ++ [dquote] ++ suf.
Proof.
  apply (filter_predicate (equality_clause (str "relativePath") (str "src/a.ts"))).
  reflexivity.
Defined.

(** The theorem at a configuration that names both a url and a host: the
    client receives the url alone. *)
Lemma clientConfig_target_witness :
  Qdrant.host
    (clientConfig {| url := Some (str "http://qdrant:6333"); apiKey := Some [];
                     port := Some 0%float; host := Some (str "qdrant");
                     timeout := None |}) = None.
Proof.
  destruct (clientConfig_target
              {| url := Some (str "http://qdrant:6333"); apiKey := Some [];
                 port := Some 0%float; host := Some (str "qdrant");
                 timeout := None |}) as ([(u & _ & _ & Hh & _)|[Hu _]] & _).
  - exact Hh.
  - discriminate Hu.
Defined.

Section Reads.
Context {B : Type}.
Implicit Types (this : QdrantVectorDatabase B) (c : Qdrant.client B) (w : world B).

(** X14.  [query] scrolls once, asking for payloads and not for vectors, with
    the caller's limit, or 100 when the limit is omitted, 0 or NaN; a limit
    of 0 therefore returns up to 100 rows, not none.  The rows are the
    scrolled points in the backend's order, one row per point. *)
Theorem query_limit this c collectionName filter outputFields limit w :
  ready this c →
  ∃ lim flt,
    (∀ l, limit = Some l → truthy_num l = true → lim = l)
    ∧ (Stated.null_num limit → lim = 100%float)
    ∧ let k :=
        Qdrant.scroll collectionName
          {| Qdrant.scroll_filter := flt;
             Qdrant.scroll_limit := lim;
             Qdrant.scroll_with_payload := true;
             Qdrant.scroll_with_vector := false |} in
      trace (query this collectionName filter outputFields limit w).1
        = trace w ++ [Qdrant.Issued k]
      ∧ ∀ scrollResult,
          (Qdrant.perform c k (backend w)).2 = inr scrollResult →
          ∃ rows,
            (query this collectionName filter outputFields limit w).2 = inr rows
            ∧ Forall2 (λ point row, row = to_row outputFields point)
                (Qdrant.points scrollResult) rows.
Proof.
  intros H. exists (num_or limit 100), (qdrantFilter filter). split_and!.
  - intros l -> Hl. by apply num_or_truthy.
  - intros [->|(n & -> & Hz%truthy_num_false)]; [done | by apply num_or_falsy].
  - cbv zeta. rewrite (AdapterFacts.query_run _ _ _ _ _ _ _ H). cbn [fst snd].
    split; [done|]. intros scrollResult ->. eexists. split; [done|].
    induction (Qdrant.points scrollResult); constructor; done.
Qed.

(** X15.  Neither search re-ranks, drops or duplicates: the results are the
    backend's hits in the backend's order, each with the hit's id and score
    unchanged (an id that is a number stays a number). *)
Theorem results_follow_hits this c collectionName w :
  ready this c →
  (∀ queryVector options results,
     (search this collectionName queryVector options w).2 = inr results →
     ∃ args hits,
       (Qdrant.perform c (Qdrant.search collectionName args) (backend w)).2 = inr hits
       ∧ Forall2 (λ h r, id (document r) = Qdrant.id h ∧ score r = Qdrant.score h)
           hits results)
  ∧ (∀ searchRequests options results,
       (hybridSearch this collectionName searchRequests options w).2 = inr results →
       ∃ args hits,
         (Qdrant.perform c (Qdrant.search collectionName args) (backend w)).2 = inr hits
         ∧ Forall2 (λ h r, id (document r) = Qdrant.id h ∧ score r = Qdrant.score h)
             hits results).
Proof.
  intros H.
  assert (∀ v (hits : list Qdrant.ScoredPoint),
            Forall2 (λ h r, id (document r) = Qdrant.id h ∧ score r = Qdrant.score h)
              hits (to_result v <$> hits)) as Hmap.
  { intros v hits. induction hits; constructor; done. }
  split.
  - intros queryVector options results.
    rewrite (AdapterFacts.search_run _ _ _ _ _ _ H). cbn [snd].
    destruct (Qdrant.perform c _ (backend w)).2 as [e|hits] eqn:E; [done|].
    intros [= <-]. eexists _, hits. split; [exact E | apply Hmap].
  - intros searchRequests options results.
    destruct (dense_vector searchRequests) as [v|] eqn:Hv.
    + rewrite (AdapterFacts.hybridSearch_run _ _ _ _ _ _ _ H Hv). cbn [snd].
      destruct (Qdrant.perform c _ (backend w)).2 as [e|hits] eqn:E; [done|].
      intros [= <-]. eexists _, hits. split; [exact E | apply Hmap].
    + by rewrite (AdapterFacts.hybridSearch_rejected _ _ _ _ _ _ H Hv).
Qed.

End Reads.

(** The theorem on the memory backend, three documents stored: a query with
    limit 0 scrolls with limit 100. *)
Lemma query_limit_witness :
  ∃ flt,
    trace (query Sample.db Memory.code [] [] (Some 0%float) Sample.seeded).1
      = [ Qdrant.Issued
            (Qdrant.scroll Memory.code
               {| Qdrant.scroll_filter := flt;
                  Qdrant.scroll_limit := 100%float;
                  Qdrant.scroll_with_payload := true;
                  Qdrant.scroll_with_vector := false |}) ].
Proof.
  destruct (query_limit Sample.db Memory.client Memory.code [] [] (Some 0%float)
              Sample.seeded) as (lim & flt & _ & Hnull & Ht & _).
  - split; reflexivity.
  - exists flt. rewrite Ht, Hnull; [reflexivity|].
    right. exists 0%float. split; [reflexivity | by left].
Defined.

(** The theorem on the memory backend: the three stored documents come back
    in the order they were inserted. *)
Lemma results_follow_hits_witness :
  ∃ results,
    (search Sample.db Memory.code [1%float; 0%float] None Sample.seeded).2 = inr results
    ∧ (λ r, id (document r)) <$> results = [Str (str "a"); Str (str "b"); Str (str "c")].
Proof.
  destruct (search Sample.db Memory.code [1%float; 0%float] None Sample.seeded).2
    as [e|results] eqn:E; [discriminate E|].
  exists results. split; [reflexivity|].
  destruct (results_follow_hits Sample.db Memory.client Memory.code Sample.seeded)
    as [Hs _]; [split; reflexivity|].
  destruct (Hs _ _ _ E) as (args & hits & _ & _).
  injection E as <-. reflexivity.
Defined.

End Beyond.
